(** * Copy Path plugin (src/main.ts): a shallow embedding and its properties

    The plugin copies the paths of files and folders of the host's vault to
    the clipboard, quoted and joined by a comma and a space.  This file
    embeds [main.ts]: the values the plugin reads at run time (TypeScript
    types are erased, so the settings are a JavaScript object holding
    JavaScript values), the host interfaces it calls, and its methods, and
    proves the properties of the specification about them. *)

From Stdlib Require Import PrimFloat Ascii.
From stdpp Require Import base option list strings pretty gmap fin_maps.

Set Warnings "-register-all".

(** ** JavaScript values *)

Module Js.

(** The values that [JSON.parse] yields, [undefined], and the error
    objects that the language throws.  A number is an IEEE 754 double, as in
    the language.  An object is the list of its own enumerable properties in
    enumeration order; an error object has none. *)
Inductive value : Type :=
| Undefined
| Null
| Bool (b : bool)
| Number (n : float)
| Str (s : string)
| Array (elems : list value)
| Object (props : list (string * value))
| Error (name : string).

(** What reading a property of [null] or [undefined], or calling what is no
    function, throws. *)
Definition TypeError : value := Error "TypeError".

(** A flat heap object, such as [this.settings]: a finite map from property
    names to values; an absent key reads as [undefined]. *)
Abbreviation obj := (gmap string value).

(** [o.k]: property read. *)
Definition get (o : obj) (k : string) : value :=
  default Undefined (o !! k).

(** ToBoolean, the test of [if (v)] and [v && ...]. *)
Definition truthy (v : value) : bool :=
  match v with
  | Undefined | Null => false
  | Bool b => b
  | Number n => negb (PrimFloat.eqb n 0 || PrimFloat.is_nan n)
  | Str s => negb (bool_decide (s = ""))
  | Array _ | Object _ | Error _ => true
  end.

(** [v === s] for a string literal [s]. *)
Definition strict_eq_str (v : value) (s : string) : bool :=
  match v with
  | Str s' => bool_decide (s' = s)
  | _ => false
  end.

(** The characters of a string as one-character strings.  (A character
    outside ASCII takes more than one position here, and not the same number
    as in the language; only the positions of such a string differ.) *)
Fixpoint chars (s : string) : list string :=
  match s with
  | EmptyString => []
  | String c s' => String c EmptyString :: chars s'
  end.

(** The own enumerable string-keyed properties of a value used as a source
    of [Object.assign], in enumeration order: those of an object; the
    indices of an array or of a (boxed) string; none for [undefined],
    [null], booleans and numbers. *)
Definition own_props (v : value) : list (string * value) :=
  match v with
  | Object props => props
  | Array elems => imap (λ i x, (pretty i, x)) elems
  | Str s => imap (λ i c, (pretty i, Str c)) (chars s)
  | _ => []
  end.

(** One source of [Object.assign]: each property is written to the target
    in turn, a later one overwriting an earlier one of the same name. *)
Definition assign1 (target : obj) (props : list (string * value)) : obj :=
  foldl (λ t kv, <[kv.1 := kv.2]> t) target props.

(** [Object.assign(target, ...sources)]. *)
Definition assign (target : obj) (sources : list (list (string * value))) : obj :=
  foldl assign1 target sources.

(** The last value that a property list gives to [k]. *)
Fixpoint last_prop (k : string) (props : list (string * value)) : option value :=
  match props with
  | [] => None
  | (k', v) :: rest =>
      match last_prop k rest with
      | Some v' => Some v'
      | None => if decide (k' = k) then Some v else None
      end
  end.

(** [JSON.parse(JSON.stringify(v))], what the store gives back for a value
    it was given: a number that is not finite becomes [null], and minus
    zero becomes zero; [undefined] becomes [null] in an array, and a
    property that is [undefined] is left out; an error object becomes the
    empty object. *)
Definition json_number (n : float) : value :=
  if PrimFloat.is_nan n || PrimFloat.is_infinity n then Null
  else if PrimFloat.eqb n 0 then Number 0
  else Number n.

Definition json_props_with (f : value → value)
  : list (string * value) → list (string * value) :=
  fix go props :=
    match props with
    | [] => []
    | (k, Undefined) :: rest => go rest
    | (k, v) :: rest => (k, f v) :: go rest
    end.

Fixpoint json (v : value) : value :=
  match v with
  | Undefined | Null => Null
  | Bool b => Bool b
  | Number n => json_number n
  | Str s => Str s
  | Array elems => Array (json <$> elems)
  | Object props => Object (json_props_with json props)
  | Error _ => Object []
  end.

End Js.

(** ** Strings and arrays of the language *)

(** [join] is what [formatPaths] calls; [includes], [split] and the slice
    are what the specification's way back from the output needs.  A string
    is the sequence of its characters; the two quote characters, the comma
    and the space are one character each. *)
Module JsString.

(** [Array.prototype.join]: the result starts empty; each element is
    appended in turn, after the separator for every element but the
    first. *)
Definition join_step (sep : string) (st : string * nat) (next : string)
  : string * nat :=
  ((if decide (st.2 = 0) then st.1 else st.1 +:+ sep) +:+ next, S st.2).

Definition join (elems : list string) (sep : string) : string :=
  (foldl (join_step sep) ("", 0) elems).1.

(** [s.startsWith(p)]. *)
Fixpoint startsWith (p s : string) : bool :=
  match p, s with
  | EmptyString, _ => true
  | String a p', String b s' => bool_decide (a = b) && startsWith p' s'
  | String _ _, EmptyString => false
  end.

(** [s.includes(sub)]: [sub] occurs somewhere in [s]. *)
Fixpoint includes (sub s : string) : bool :=
  startsWith sub s ||
  match s with
  | EmptyString => false
  | String _ s' => includes sub s'
  end.

(** [s.split(sep)] for a non-empty separator: the pieces between the
    occurrences of [sep], found from the left and not overlapping.  [skip]
    counts the characters of a found separator still to pass over, [cur]
    holds the piece being read, reversed. *)
Fixpoint split_go (sep : string) (skip : nat) (cur : string) (s : string)
  : list string :=
  match s with
  | EmptyString => [String.rev cur]
  | String c s' =>
      match skip with
      | S n => split_go sep n cur s'
      | 0 =>
          if startsWith sep s
          then String.rev cur :: split_go sep (String.length sep - 1) "" s'
          else split_go sep 0 (String c cur) s'
      end
  end.

Definition split (s sep : string) : list string := split_go sep 0 "" s.

(** [s.slice(1, -1)]: [s] without its first and its last character. *)
Fixpoint drop_last (s : string) : string :=
  match s with
  | EmptyString => EmptyString
  | String c EmptyString => EmptyString
  | String c s' => String c (drop_last s')
  end.

Definition slice_1_m1 (s : string) : string :=
  match s with
  | EmptyString => EmptyString
  | String _ s' => drop_last s'
  end.

End JsString.

(** ** The entries of the host's vault *)

(** [TAbstractFile] and its two subclasses.  A folder holds its children; an
    entry that is an instance of neither subclass is [TOther]. *)
Inductive TAbstractFile : Type :=
| TFile (path : string)
| TFolder (path : string) (children : list TAbstractFile)
| TOther (path : string).

Definition path (item : TAbstractFile) : string :=
  match item with
  | TFile p | TFolder p _ | TOther p => p
  end.

Definition instanceof_TFile (item : TAbstractFile) : bool :=
  match item with TFile _ => true | _ => false end.

Definition instanceof_TFolder (item : TAbstractFile) : bool :=
  match item with TFolder _ _ => true | _ => false end.

(** ** Settings *)

(** The two values of [quoteStyle] that the settings interface declares. *)
Inductive QuoteStyle := single | double.

Definition QuoteStyle_str (q : QuoteStyle) : string :=
  match q with single => "single" | double => "double" end.

(** The object literal [DEFAULT_SETTINGS]. *)
Definition DEFAULT_SETTINGS_literal : Js.obj :=
  <["quoteStyle" := Js.Str "single"]> (<["showNotice" := Js.Bool true]> ∅).

(** The double quote character, and the two quote strings of [formatPaths]. *)
Definition dquote : string := String "034"%char EmptyString.
Definition squote : string := "'".

(** ** The pure methods *)

(** [collectAllPaths]: the loop pushes the path of each item that is a file
    or a folder; [paths] is the array built so far. *)
Definition collectAllPaths_step (paths : list string) (item : TAbstractFile)
  : list string :=
  if instanceof_TFile item then paths ++ [path item]
  else if instanceof_TFolder item then paths ++ [path item]
  else paths.

Definition collectAllPaths (items : list TAbstractFile) : list string :=
  foldl collectAllPaths_step [] items.

(** [formatPaths], with [this.settings] passed as [settings]. *)
Definition formatPaths (settings : Js.obj) (paths : list string) : string :=
  let quote :=
    if Js.strict_eq_str (Js.get settings "quoteStyle") "single"
    then squote else dquote in
  JsString.join ((λ p, quote +:+ p +:+ quote) <$> paths) ", ".

(** ** The host application *)

(** The file explorer's internal state, as far as the plugin looks into it.
    Every step that the code guards ([&&], [?.]) is an [option] here;
    [fileItems] lists the object's entries in enumeration order, and
    [classList] the classes of the item's element. *)
Record SelfEl := { classList : option (list string) }.
Record FileItem := { selfEl : option SelfEl }.

(** What is found as the value of an entry of [fileItems].  The code reads
    [.selfEl] of it without a guard and calls [.contains] of the class list
    without a guard, so two values make it throw: [null] or [undefined]
    in place of the item, and an item whose element has a class list
    without a [contains] method.  Every other item is seen through the
    guards, as a [FileItem]. *)
Inductive ItemValue :=
| Nullish
| NoContainsMethod
| Shaped (item : FileItem).

Record ExplorerView := { fileItems : option (list (string * ItemValue)) }.
Record WorkspaceLeaf := { view : option ExplorerView }.

(** What the host answers during one action of the plugin. *)
Record Host := {
  (** [app.workspace.getActiveFile()], [None] for [null] *)
  getActiveFile : option TAbstractFile;
  (** [app.workspace.getLeavesOfType(type)] *)
  getLeavesOfType : string → list WorkspaceLeaf;
  (** [app.vault.getAbstractFileByPath(path)], [None] for [null] *)
  getAbstractFileByPath : string → option TAbstractFile;
  (** [navigator.clipboard.writeText(text)]: [None] when the promise
      resolves, [Some err] when it rejects with [err] *)
  writeText : string → option Js.value;
  (** [saveData(data)]: [None] when the promise resolves and the data is
      stored, [Some err] when it rejects with [err] and nothing is stored *)
  saveData : Js.value → option Js.value;
}.

(** What the plugin does to the outside, in the order it does it. *)
Inductive Event :=
| ENotice (message : string)
| EWriteText (text : string)
| EConsoleError (label : string) (err : Js.value).

(** [this.settings] refers either to the object that the constant
    [DEFAULT_SETTINGS] is bound to (the field's initialiser) or to an object
    of its own (after [loadSettings]). *)
Inductive SettingsRef :=
| SharedDefault
| Own (o : Js.obj).

(** The state that the plugin's methods read and write. *)
Record World := {
  DEFAULT_SETTINGS : Js.obj;
  settings : SettingsRef;
  (** the data that [saveData] stored, [Js.Null] when there is none *)
  data : Js.value;
  (** the events so far, oldest first *)
  events : list Event;
}.

(** The object that [this.settings] refers to. *)
Definition this_settings (w : World) : Js.obj :=
  match settings w with
  | SharedDefault => DEFAULT_SETTINGS w
  | Own o => o
  end.

(** The state when the plugin object has been constructed. *)
Definition initial (stored : Js.value) : World :=
  {| DEFAULT_SETTINGS := DEFAULT_SETTINGS_literal;
     settings := SharedDefault;
     data := stored;
     events := [] |}.

(** ** Methods with effects *)

(** A method call either returns or throws (for an [async] method: its
    promise resolves or rejects), and leaves a new state.  An [async] method
    is run to its end in one go: what other callbacks would do while it
    awaits is not part of the model. *)
Inductive Outcome (A : Type) :=
| Returned (a : A)
| Thrown (err : Js.value).
Arguments Returned {A} a.
Arguments Thrown {A} err.

Definition M (A : Type) : Type := Host → World → Outcome A * World.

#[global] Instance M_ret : MRet M := λ A a _ w, (Returned a, w).

#[global] Instance M_bind : MBind M := λ A B f m h w,
  match m h w with
  | (Returned a, w') => f a h w'
  | (Thrown err, w') => (Thrown err, w')
  end.

(** [try { body } catch (err) { handler }] *)
Definition try_catch {A} (body : M A) (handler : Js.value → M A) : M A :=
  λ h w,
    match body h w with
    | (Returned a, w') => (Returned a, w')
    | (Thrown err, w') => handler err h w'
    end.

(** [throw err], and the rejection of an awaited promise. *)
Definition throw {A} (err : Js.value) : M A := λ _ w, (Thrown err, w).

Definition host : M Host := λ h w, (Returned h, w).
Definition world : M World := λ _ w, (Returned w, w).

(** The state after one more event. *)
Definition log (e : Event) (w : World) : World :=
  {| DEFAULT_SETTINGS := DEFAULT_SETTINGS w; settings := settings w;
     data := data w; events := events w ++ [e] |}.

Definition emit (e : Event) : M unit := λ _ w, (Returned tt, log e w).

(** [new Notice(message)] *)
Definition new_Notice (message : string) : M unit := emit (ENotice message).

(** [console.error(label, err)] *)
Definition console_error (label : string) (err : Js.value) : M unit :=
  emit (EConsoleError label err).

(** [await navigator.clipboard.writeText(text)] *)
Definition clipboard_writeText (text : string) : M unit :=
  emit (EWriteText text);;
  h ← host;
  match writeText h text with
  | None => mret tt
  | Some err => throw err
  end.

(** [copyPathsToClipboard] *)
Definition copyPathsToClipboard (files : list TAbstractFile) : M unit :=
  let paths := collectAllPaths files in
  if bool_decide (length paths = 0) then
    new_Notice "No paths to copy"
  else
    w ← world;
    let formattedPaths := formatPaths (this_settings w) paths in
    try_catch
      (clipboard_writeText formattedPaths;;
       w ← world;
       if Js.truthy (Js.get (this_settings w) "showNotice") then
         let count := length paths in
         let message :=
           if bool_decide (count = 1) then "Path copied"
           else pretty count +:+ " paths copied" in
         new_Notice message
       else mret tt)
      (λ err,
         new_Notice "Failed to copy to clipboard";;
         console_error "Copy failed:" err).

(** [copyActiveFilePath] *)
Definition copyActiveFilePath : M unit :=
  h ← host;
  match getActiveFile h with
  | Some activeFile => copyPathsToClipboard [activeFile]
  | None => new_Notice "No active file"
  end.

(** [(item as any).selfEl?.classList?.contains("is-selected")] *)
Definition is_selected (item : FileItem) : bool :=
  match selfEl item with
  | Some el =>
      match classList el with
      | Some classes => bool_decide ("is-selected" ∈ classes)
      | None => false
      end
  | None => false
  end.

(** The same test on what is found in [fileItems]: it throws where the
    code reads or calls without a guard. *)
Definition item_selected (item : ItemValue) : M bool :=
  match item with
  | Nullish => throw Js.TypeError
  | NoContainsMethod => throw Js.TypeError
  | Shaped item => mret (is_selected item)
  end.

(** A [for ... of] loop whose body may throw: [step] gives the state of the
    loop after one element. *)
Fixpoint for_of {A B} (step : B → A → M B) (acc : B) (l : list A) : M B :=
  match l with
  | [] => mret acc
  | x :: rest => acc' ← step acc x; for_of step acc' rest
  end.

(** The body of the loop of [getSelectedFilesFromExplorer]. *)
Definition getSelectedFiles_step (selectedFiles : list TAbstractFile)
    (entry : string * ItemValue) : M (list TAbstractFile) :=
  selected ← item_selected entry.2;
  if selected : bool then
    h ← host;
    match getAbstractFileByPath h entry.1 with
    | Some file => mret (selectedFiles ++ [file])
    | None => mret selectedFiles
    end
  else mret selectedFiles.

(** [getSelectedFilesFromExplorer] *)
Definition getSelectedFilesFromExplorer : M (list TAbstractFile) :=
  h ← host;
  match head (getLeavesOfType h "file-explorer") with
  | None => mret []
  | Some fileExplorer =>
      match view fileExplorer with
      | Some explorerView =>
          match fileItems explorerView with
          | Some items => for_of getSelectedFiles_step [] items
          | None => mret []
          end
      | None => mret []
      end
  end.

(** [copySelectedFilesPaths] *)
Definition copySelectedFilesPaths : M unit :=
  selectedFiles ← getSelectedFilesFromExplorer;
  if bool_decide (0 < length selectedFiles) then
    copyPathsToClipboard selectedFiles
  else copyActiveFilePath.

(** [loadSettings]: [loadData] yields the stored data. *)
Definition loadSettings : M unit := λ _ w,
  (Returned tt,
   {| DEFAULT_SETTINGS := DEFAULT_SETTINGS w;
      settings :=
        Own (Js.assign ∅ [map_to_list (DEFAULT_SETTINGS w); Js.own_props (data w)]);
      data := data w; events := events w |}).

(** [saveSettings]: [await this.saveData(this.settings)].  When the host
    stores the data, what is stored is what [loadData] gives back later, the
    settings as JSON; when the host rejects, nothing is stored and the
    rejection goes to the caller.  (The state keeps the properties of an
    object as a finite map, so the order of the stored properties is not
    that of the object.) *)
Definition saveSettings : M unit := λ h w,
  let stored := Js.json (Js.Object (map_to_list (this_settings w))) in
  match saveData h stored with
  | None =>
      (Returned tt,
       {| DEFAULT_SETTINGS := DEFAULT_SETTINGS w; settings := settings w;
          data := stored; events := events w |})
  | Some err => (Thrown err, w)
  end.

(** [this.plugin.settings.k = v], a write to the object that the field
    refers to. *)
Definition set_setting (k : string) (v : Js.value) : M unit := λ _ w,
  (Returned tt,
   match settings w with
   | SharedDefault =>
       {| DEFAULT_SETTINGS := <[k := v]> (DEFAULT_SETTINGS w);
          settings := SharedDefault; data := data w; events := events w |}
   | Own o =>
       {| DEFAULT_SETTINGS := DEFAULT_SETTINGS w;
          settings := Own (<[k := v]> o); data := data w; events := events w |}
   end).

(** The two change handlers of [CopyPathSettingTab.display]. *)
Definition showNotice_onChange (value : bool) : M unit :=
  set_setting "showNotice" (Js.Bool value);; saveSettings.

Definition quoteStyle_onChange (value : QuoteStyle) : M unit :=
  set_setting "quoteStyle" (Js.Str (QuoteStyle_str value));; saveSettings.

(** ** What the plugin registers in [onload] *)

(** The callbacks that [onload] registers, and the two change handlers of
    the settings tab: what the host can make the plugin do once it is
    loaded. *)
Inductive Action :=
| RibbonClick
| CommandCopyActiveFilePath
| CommandCopySelectedFilesPath
| FileMenuCopyPath (file : TAbstractFile)
| FilesMenuCopyPaths (files : list TAbstractFile)
| ToggleShowNotice (value : bool)
| SelectQuoteStyle (value : QuoteStyle).

Definition run_action (a : Action) : M unit :=
  match a with
  | RibbonClick => copyActiveFilePath
  | CommandCopyActiveFilePath => copyActiveFilePath
  | CommandCopySelectedFilesPath => copySelectedFilesPaths
  | FileMenuCopyPath file => copyPathsToClipboard [file]
  | FilesMenuCopyPaths files => copyPathsToClipboard files
  | ToggleShowNotice value => showNotice_onChange value
  | SelectQuoteStyle value => quoteStyle_onChange value
  end.

(** ** The notions of the specification *)

(** The quote character that a quote style selects. *)
Definition quote_char (q : QuoteStyle) : string :=
  match q with single => squote | double => dquote end.

(** The output format in the words of the specification: each path between
    two quote characters, and a comma and a space between one entry and the
    next. *)
Fixpoint quoted_list (quote : string) (paths : list string) : string :=
  match paths with
  | [] => ""
  | p :: rest =>
      match rest with
      | [] => quote +:+ p +:+ quote
      | _ :: _ => quote +:+ p +:+ quote +:+ ", " +:+ quoted_list quote rest
      end
  end.

(** The inverse that the specification describes: strip the quote character
    at each end, and split at quote, comma, space, quote. *)
Definition unformat (quote : string) (output : string) : list string :=
  JsString.split (JsString.slice_1_m1 output) (quote +:+ ", " +:+ quote).

(** An entry that is a file or a folder. *)
Definition is_file_or_folder (item : TAbstractFile) : Prop :=
  instanceof_TFile item || instanceof_TFolder item.

#[global] Instance is_file_or_folder_dec item : Decision (is_file_or_folder item).
Proof. unfold is_file_or_folder. apply _. Defined.

(** The file items of the first file-explorer leaf, when the explorer view
    and its state are there. *)
Definition explorer_fileItems (h : Host) : option (list (string * ItemValue)) :=
  leaf ← head (getLeavesOfType h "file-explorer");
  v ← view leaf;
  fileItems v.

(** The settings, in memory and stored, are the same in two states. *)
Definition same_settings (w w' : World) : Prop :=
  DEFAULT_SETTINGS w' = DEFAULT_SETTINGS w ∧
  settings w' = settings w ∧
  data w' = data w.

(** A method that leaves the settings as they are, whatever the host
    answers and whether it returns or throws. *)
Definition preserves_settings {A} (m : M A) : Prop :=
  ∀ h w, same_settings w (m h w).2.

(** The states that the plugin goes through: the settings are loaded first,
    and then the host runs the registered callbacks, in any order. *)
Inductive reachable : World → Prop :=
| reachable_loaded stored h :
    reachable (loadSettings h (initial stored)).2
| reachable_action w a h :
    reachable w → reachable (run_action a h w).2.

(** ** Reading the events *)

(** The texts written to the clipboard, oldest first. *)
Definition writes (es : list Event) : list string :=
  omap (λ e, match e with EWriteText text => Some text | _ => None end) es.

(** The notices shown, oldest first. *)
Definition notices (es : list Event) : list string :=
  omap (λ e, match e with ENotice message => Some message | _ => None end) es.

(** A value that is stored and read back as it is: a boolean, a string or
    [null]. *)
Definition stored_as_is (v : Js.value) : Prop :=
  match v with
  | Js.Bool _ | Js.Str _ | Js.Null => True
  | _ => False
  end.

(** The properties of the stored data, as a map. *)
Definition stored_properties (w : World) : Js.obj :=
  Js.assign1 ∅ (Js.own_props (data w)).

(** The state after the write [settings.k = v]. *)
Definition setting_written (k : string) (v : Js.value) (w : World) : World :=
  match settings w with
  | SharedDefault =>
      {| DEFAULT_SETTINGS := <[k := v]> (DEFAULT_SETTINGS w);
         settings := SharedDefault; data := data w; events := events w |}
  | Own o =>
      {| DEFAULT_SETTINGS := DEFAULT_SETTINGS w;
         settings := Own (<[k := v]> o); data := data w; events := events w |}
  end.

(** The data that [saveSettings] hands to the store. *)
Definition settings_to_store (w : World) : Js.value :=
  Js.json (Js.Object (map_to_list (this_settings w))).

(** The state in which data is stored. *)
Definition with_data (d : Js.value) (w : World) : World :=
  {| DEFAULT_SETTINGS := DEFAULT_SETTINGS w; settings := settings w;
     data := d; events := events w |}.

(** File items that are all seen through the guards. *)
Definition shaped (items : list (string * FileItem))
  : list (string * ItemValue) :=
  (λ entry, (entry.1, Shaped entry.2)) <$> items.

(** The state after a sequence of callbacks, each with the answers of the
    host at its time. *)
Definition run_actions (steps : list (Action * Host)) (w : World) : World :=
  foldl (λ w step, (run_action step.1 step.2 w).2) w steps.

(** ** Sample hosts and states *)

(** A host with the given active file and file-explorer leaves, a vault in
    which every path names a file, and a clipboard that takes every text
    ([rejection = None]) or rejects every text with the given value. *)
Definition sample_host (active : option TAbstractFile)
    (leaves : list WorkspaceLeaf) (rejection : option Js.value) : Host :=
  {| getActiveFile := active;
     getLeavesOfType :=
       λ type, if bool_decide (type = "file-explorer") then leaves else [];
     getAbstractFileByPath := λ p, Some (TFile p);
     writeText := λ _, rejection;
     saveData := λ _, None |}.


(** A host whose store rejects every save with the given value. *)
Definition sample_host_failing_store (err : Js.value) : Host :=
  {| getActiveFile := None;
     getLeavesOfType := λ _, [];
     getAbstractFileByPath := λ _, None;
     writeText := λ _, None;
     saveData := λ _, Some err |}.

(** A file-explorer leaf with the given file items, all seen through the
    guards. *)
Definition sample_leaf (items : list (string * FileItem)) : WorkspaceLeaf :=
  {| view := Some {| fileItems := Some (shaped items) |} |}.

(** A file-explorer leaf with whatever is found as its file items. *)
Definition sample_leaf_raw (items : list (string * ItemValue)) : WorkspaceLeaf :=
  {| view := Some {| fileItems := Some items |} |}.

(** A file item with the given classes on its element. *)
Definition sample_item (classes : list string) : FileItem :=
  {| selfEl := Some {| classList := Some classes |} |}.

(** The state after [loadSettings] when nothing is stored. *)
Definition sample_world : World :=
  {| DEFAULT_SETTINGS := DEFAULT_SETTINGS_literal;
     settings := Own DEFAULT_SETTINGS_literal;
     data := Js.Null;
     events := [] |}.

(** * Properties *)

(** ** Strings *)

Section strings.
Implicit Types (s t u sep : string) (c : ascii) (l : list string).

Lemma str_app_cons c s t : String c s +:+ t = String c (s +:+ t).
Proof. reflexivity. Qed.

Lemma str_app_nil_r s : s +:+ "" = s.
Proof. induction s as [|c s IH]; [done|]. by rewrite str_app_cons, IH. Qed.

Lemma str_app_assoc s t u : (s +:+ t) +:+ u = s +:+ t +:+ u.
Proof. induction s as [|c s IH]; [done|]. by rewrite !str_app_cons, IH. Qed.

Lemma rev_app_app s t u :
  String.rev_app (String.rev_app s t) u = String.rev_app t (s +:+ u).
Proof.
  revert t u. induction s as [|c s IH]; intros t u; [done|].
  simpl. by rewrite IH.
Qed.

Lemma rev_rev_app s : String.rev (String.rev_app s "") = s.
Proof. unfold String.rev. rewrite rev_app_app. simpl. apply str_app_nil_r. Qed.

(** The loop of [join] with the result so far [acc], past the first
    element: every further element comes after a separator. *)
Lemma join_loop_S sep acc k l :
  (foldl (JsString.join_step sep) (acc, S k) l).1
  = acc +:+ foldr (λ x r, sep +:+ x +:+ r) "" l.
Proof.
  revert acc k. induction l as [|x l IH]; intros acc k; simpl.
  - by rewrite str_app_nil_r.
  - unfold JsString.join_step at 2. simpl. rewrite IH.
    by rewrite !str_app_assoc.
Qed.

Lemma join_nil sep : JsString.join [] sep = "".
Proof. reflexivity. Qed.

Lemma join_cons sep x l :
  JsString.join (x :: l) sep = x +:+ foldr (λ y r, sep +:+ y +:+ r) "" l.
Proof.
  unfold JsString.join. simpl. unfold JsString.join_step at 2. simpl.
  by rewrite join_loop_S.
Qed.

Lemma join_singleton sep x : JsString.join [x] sep = x.
Proof. rewrite join_cons. simpl. apply str_app_nil_r. Qed.

Lemma join_cons_cons sep x y l :
  JsString.join (x :: y :: l) sep = x +:+ sep +:+ JsString.join (y :: l) sep.
Proof. by rewrite !join_cons. Qed.

End strings.

(** ** [formatPaths] *)

Section formatPaths.
Implicit Types (settings : Js.obj) (q : QuoteStyle) (paths : list string).

(** The quote that [formatPaths] picks. *)
Lemma formatPaths_join settings paths :
  formatPaths settings paths
  = let quote :=
      if Js.strict_eq_str (Js.get settings "quoteStyle") "single"
      then squote else dquote in
    JsString.join ((λ p, quote +:+ p +:+ quote) <$> paths) ", ".
Proof. reflexivity. Qed.

Lemma quote_selected settings q :
  Js.get settings "quoteStyle" = Js.Str (QuoteStyle_str q) →
  (if Js.strict_eq_str (Js.get settings "quoteStyle") "single"
   then squote else dquote) = quote_char q.
Proof. intros ->. by destruct q. Qed.

Lemma quoted_list_cons quote p rest :
  quoted_list quote (p :: rest)
  = (quote +:+ p +:+ quote)
      +:+ foldr (λ y r, ", " +:+ y +:+ r) ""
            ((λ p, quote +:+ p +:+ quote) <$> rest).
Proof.
  revert p. induction rest as [|p' rest IH]; intros p.
  - simpl. by rewrite str_app_nil_r.
  - change (quoted_list quote (p :: p' :: rest))
      with (quote +:+ p +:+ quote +:+ ", " +:+ quoted_list quote (p' :: rest)).
    rewrite IH, fmap_cons. simpl. by rewrite !str_app_assoc.
Qed.

Lemma join_quoted quote paths :
  JsString.join ((λ p, quote +:+ p +:+ quote) <$> paths) ", "
  = quoted_list quote paths.
Proof.
  destruct paths as [|p rest]; [done|].
  by rewrite fmap_cons, join_cons, quoted_list_cons.
Qed.

(** C1 ([formatPaths], lines 175-178).  Whatever quote style the settings
    hold, [formatPaths] returns each path between two copies of the quote
    character of that style (['] for single, the double quote for
    double), the entries joined by a comma and a space, and the same
    quote character for every entry.  This holds for every sequence of
    paths; for the empty one both sides are the empty string. *)
Theorem formatPaths_quoted_list settings q paths :
  Js.get settings "quoteStyle" = Js.Str (QuoteStyle_str q) →
  formatPaths settings paths = quoted_list (quote_char q) paths.
Proof.
  intros Hq. rewrite formatPaths_join. simpl.
  rewrite (quote_selected _ _ Hq). apply join_quoted.
Qed.

Lemma formatPaths_quoted_list_witness :
  Js.get (<["quoteStyle" := Js.Str "double"]> DEFAULT_SETTINGS_literal)
    "quoteStyle" = Js.Str (QuoteStyle_str double) ∧
  formatPaths (<["quoteStyle" := Js.Str "double"]> DEFAULT_SETTINGS_literal)
    ["notes/a.md"; "notes/b.md"]
  = quoted_list (quote_char double) ["notes/a.md"; "notes/b.md"].
Proof.
  split; [vm_compute; reflexivity|].
  apply formatPaths_quoted_list. vm_compute. reflexivity.
Defined.

Example formatPaths_two_double :
  formatPaths (<["quoteStyle" := Js.Str "double"]> DEFAULT_SETTINGS_literal)
    ["notes/a.md"; "notes/b.md"]
  = dquote +:+ "notes/a.md" +:+ dquote +:+ ", "
      +:+ dquote +:+ "notes/b.md" +:+ dquote.
Proof. vm_compute. reflexivity. Qed.

Example formatPaths_one_single :
  formatPaths DEFAULT_SETTINGS_literal ["a/b.md"] = "'a/b.md'".
Proof. reflexivity. Qed.

Example formatPaths_two_single :
  formatPaths DEFAULT_SETTINGS_literal ["a/b.md"; "c/d.md"]
  = "'a/b.md', 'c/d.md'".
Proof. reflexivity. Qed.

(** A value of [quoteStyle] other than the string [single], a stale or an
    absent one included, selects the double quote. *)
Lemma formatPaths_other_value settings paths :
  Js.get settings "quoteStyle" ≠ Js.Str "single" →
  formatPaths settings paths = quoted_list dquote paths.
Proof.
  intros Hq. rewrite formatPaths_join. simpl.
  replace (Js.strict_eq_str (Js.get settings "quoteStyle") "single") with false.
  - apply join_quoted.
  - symmetry. destruct (Js.get settings "quoteStyle"); try done.
    simpl. apply bool_decide_eq_false. congruence.
Qed.

(** The output is not empty when there is a path. *)
Lemma quoted_list_nonempty q paths :
  paths ≠ [] → quoted_list (quote_char q) paths ≠ "".
Proof. destruct paths as [|p [|p' rest]]; [done| |]; by destruct q. Qed.

End formatPaths.

(** ** [collectAllPaths] *)

Section collectAllPaths.
Implicit Types (items : list TAbstractFile) (paths : list string).

Lemma collectAllPaths_step_cases paths item :
  collectAllPaths_step paths item
  = if decide (is_file_or_folder item) then paths ++ [path item] else paths.
Proof. by destruct item. Qed.

(** The loop, from the array [paths] built so far. *)
Lemma collectAllPaths_loop paths items :
  foldl collectAllPaths_step paths items
  = paths ++ (path <$> filter is_file_or_folder items).
Proof.
  revert paths. induction items as [|item items IH]; intros paths; simpl.
  - by rewrite app_nil_r.
  - rewrite IH, collectAllPaths_step_cases, filter_cons.
    destruct (decide (is_file_or_folder item)); [|done].
    by rewrite fmap_cons, <- app_assoc.
Qed.

Lemma collectAllPaths_filter items :
  collectAllPaths items = path <$> filter is_file_or_folder items.
Proof. apply collectAllPaths_loop. Qed.

Lemma collectAllPaths_app items1 items2 :
  collectAllPaths (items1 ++ items2)
  = collectAllPaths items1 ++ collectAllPaths items2.
Proof. by rewrite !collectAllPaths_filter, filter_app, fmap_app. Qed.

(** C3 ([collectAllPaths], lines 157-170).  [collectAllPaths] returns the
    paths of the entries that are files or folders, each as it is, in the
    order of the input; an entry that occurs twice gives its path twice;
    a folder gives its own path and nothing for the entries under it. *)
Theorem collectAllPaths_paths_in_order items :
  collectAllPaths items = path <$> filter is_file_or_folder items ∧
  (∀ item, collectAllPaths (item :: item :: items)
           = collectAllPaths [item] ++ collectAllPaths [item]
               ++ collectAllPaths items) ∧
  (∀ p, collectAllPaths (TFile p :: items) = p :: collectAllPaths items) ∧
  (∀ p children,
     collectAllPaths (TFolder p children :: items) = p :: collectAllPaths items).
Proof.
  split; [apply collectAllPaths_filter|].
  split; [intros item|split; [intros p|intros p children]].
  - by rewrite <- !collectAllPaths_app.
  - apply (collectAllPaths_app [TFile p] items).
  - apply (collectAllPaths_app [TFolder p children] items).
Qed.

(** When every entry is a file or a folder, as the host's types have it,
    the result is the path of every entry. *)
Lemma collectAllPaths_all items :
  Forall is_file_or_folder items → collectAllPaths items = path <$> items.
Proof.
  intros Hall. rewrite collectAllPaths_filter.
  f_equal. induction Hall as [|item items Hitem _ IH]; [done|].
  rewrite filter_cons. destruct (decide (is_file_or_folder item)); [|done].
  by rewrite IH.
Qed.

Lemma collectAllPaths_length items :
  length (collectAllPaths items) = length (filter is_file_or_folder items).
Proof. by rewrite collectAllPaths_filter, length_fmap. Qed.

Example collectAllPaths_folder_not_entered :
  collectAllPaths
    [TFolder "notes" [TFile "notes/a.md"; TFile "notes/b.md"];
     TFile "c.md"; TOther "x"; TFile "c.md"]
  = ["notes"; "c.md"; "c.md"].
Proof. reflexivity. Qed.

End collectAllPaths.

(** ** Reading the output back *)

Section unformat.
Implicit Types (s t rest cur piece sep : string) (c q : ascii).
Implicit Types (paths : list string).

(** A string without the character [q]. *)
Lemma includes_char_cons q c s :
  JsString.includes (String q "") (String c s) = false →
  q ≠ c ∧ JsString.includes (String q "") s = false.
Proof.
  simpl. intros [H1 H2]%orb_false_elim. split; [|done].
  rewrite andb_true_r in H1. by apply bool_decide_eq_false in H1.
Qed.

Lemma startsWith_app sep rest : JsString.startsWith sep (sep +:+ rest) = true.
Proof.
  induction sep as [|c sep IH]; [done|].
  rewrite str_app_cons. simpl. rewrite IH. by rewrite bool_decide_eq_true_2.
Qed.

(** Passing over the rest of a separator that was found. *)
Lemma split_go_skip sep s cur rest :
  JsString.split_go sep (String.length s) cur (s +:+ rest)
  = JsString.split_go sep 0 cur rest.
Proof.
  induction s as [|c s IH]; [done|].
  rewrite str_app_cons. simpl. apply IH.
Qed.

(** A piece without the first character of the separator is read to its
    end. *)
Lemma split_go_piece q sep piece cur rest :
  JsString.includes (String q "") piece = false →
  JsString.split_go (String q sep) 0 cur (piece +:+ rest)
  = JsString.split_go (String q sep) 0 (String.rev_app piece cur) rest.
Proof.
  revert cur. induction piece as [|c piece IH]; intros cur Hq; [done|].
  apply includes_char_cons in Hq as [Hne Hq].
  rewrite str_app_cons. simpl.
  rewrite (bool_decide_eq_false_2 _ Hne). simpl. by apply IH.
Qed.

(** At a separator the piece read so far ends and the next one starts. *)
Lemma split_go_sep q sep cur rest :
  JsString.split_go (String q sep) 0 cur (String q sep +:+ rest)
  = String.rev cur :: JsString.split_go (String q sep) 0 "" rest.
Proof.
  rewrite str_app_cons.
  change (JsString.split_go (String q sep) 0 cur (String q (sep +:+ rest)))
    with (if JsString.startsWith (String q sep) (String q (sep +:+ rest))
          then String.rev cur
                 :: JsString.split_go (String q sep)
                      (String.length (String q sep) - 1) "" (sep +:+ rest)
          else JsString.split_go (String q sep) 0 (String q cur) (sep +:+ rest)).
  rewrite <- str_app_cons, startsWith_app.
  f_equal. simpl. rewrite Nat.sub_0_r. apply split_go_skip.
Qed.

Lemma split_go_end q sep piece :
  JsString.includes (String q "") piece = false →
  JsString.split_go (String q sep) 0 "" piece = [piece].
Proof.
  intros Hq. rewrite <- (str_app_nil_r piece) at 1.
  rewrite (split_go_piece _ _ _ _ _ Hq). simpl. by rewrite rev_rev_app.
Qed.

(** Splitting at a separator undoes joining with it, when no piece holds
    the first character of the separator. *)
Lemma split_join q sep p paths :
  Forall (λ p, JsString.includes (String q "") p = false) (p :: paths) →
  JsString.split (JsString.join (p :: paths) (String q sep)) (String q sep)
  = p :: paths.
Proof.
  unfold JsString.split. rewrite join_cons.
  revert p. induction paths as [|p' paths IH]; intros p Hall.
  - simpl. rewrite str_app_nil_r. apply split_go_end. by inversion Hall.
  - inversion Hall as [|?? Hp Hrest]; subst. simpl.
    rewrite (split_go_piece _ _ _ _ _ Hp).
    rewrite split_go_sep, rev_rev_app. f_equal. by apply IH.
Qed.

Lemma drop_last_app_char s c : JsString.drop_last (s +:+ String c "") = s.
Proof.
  induction s as [|c' s IH]; [done|].
  rewrite str_app_cons.
  change (JsString.drop_last (String c' (s +:+ String c "")))
    with (match s +:+ String c "" with
          | EmptyString => EmptyString
          | String _ _ => String c' (JsString.drop_last (s +:+ String c ""))
          end).
  rewrite IH. by destruct s.
Qed.

Lemma slice_quoted q s :
  JsString.slice_1_m1 (String q "" +:+ s +:+ String q "") = s.
Proof. rewrite str_app_cons. simpl. apply drop_last_app_char. Qed.

(** The output is one quote, the paths joined by quote, comma, space,
    quote, and one quote. *)
Lemma quoted_list_join quote p paths :
  quoted_list quote (p :: paths)
  = quote +:+ JsString.join (p :: paths) (quote +:+ ", " +:+ quote) +:+ quote.
Proof.
  revert p. induction paths as [|p' paths IH]; intros p.
  - by rewrite join_singleton.
  - change (quoted_list quote (p :: p' :: paths))
      with (quote +:+ p +:+ quote +:+ ", " +:+ quoted_list quote (p' :: paths)).
    rewrite IH, join_cons_cons. by rewrite !str_app_assoc.
Qed.

(** C9 ([formatPaths], lines 175-178).  For a non-empty sequence of paths
    and a quote style, when no path holds the quote character of the style
    or a comma followed by a space, stripping the quote character at each
    end of the output of [formatPaths] and splitting the rest at quote,
    comma, space, quote gives back the paths. *)
Theorem unformat_formatPaths (settings : Js.obj) (qs : QuoteStyle) paths :
  paths ≠ [] →
  Js.get settings "quoteStyle" = Js.Str (QuoteStyle_str qs) →
  Forall (λ p, JsString.includes (quote_char qs) p = false ∧
               JsString.includes ", " p = false) paths →
  unformat (quote_char qs) (formatPaths settings paths) = paths.
Proof.
  intros Hne Hqs Hall. destruct paths as [|p paths]; [done|].
  rewrite formatPaths_join. cbv zeta.
  rewrite (quote_selected _ _ Hqs), join_quoted, quoted_list_join.
  unfold unformat.
  assert (∃ q, quote_char qs = String q "") as [q Hq]
    by (destruct qs; eexists; reflexivity).
  rewrite Hq in *. rewrite slice_quoted.
  change (String q "" +:+ ", " +:+ String q "")
    with (String q (", " +:+ String q "")).
  apply split_join. eapply Forall_impl; [exact Hall|]. by intros ? [? _].
Qed.

Lemma unformat_formatPaths_witness :
  ["notes/a.md"; "notes/b.md"] ≠ [] ∧
  Js.get DEFAULT_SETTINGS_literal "quoteStyle" = Js.Str (QuoteStyle_str single) ∧
  Forall (λ p, JsString.includes (quote_char single) p = false ∧
               JsString.includes ", " p = false)
    ["notes/a.md"; "notes/b.md"] ∧
  unformat (quote_char single)
    (formatPaths DEFAULT_SETTINGS_literal ["notes/a.md"; "notes/b.md"])
  = ["notes/a.md"; "notes/b.md"].
Proof.
  assert (Forall (λ p, JsString.includes (quote_char single) p = false ∧
                       JsString.includes ", " p = false)
            ["notes/a.md"; "notes/b.md"]) as Hall
    by (repeat constructor).
  split; [discriminate|]. split; [vm_compute; reflexivity|].
  split; [exact Hall|].
  apply unformat_formatPaths; [discriminate|vm_compute; reflexivity|exact Hall].
Defined.

(** The empty sequence is not read back: its output is the empty string,
    which splits into one empty piece. *)
Example unformat_empty (settings : Js.obj) :
  unformat squote (formatPaths settings []) = [""].
Proof. reflexivity. Qed.

(** Nor is a path that holds the quote character. *)
Example unformat_quote_in_path :
  unformat squote (formatPaths DEFAULT_SETTINGS_literal ["a', 'b"]) = ["a"; "b"].
Proof. reflexivity. Qed.

End unformat.

(** ** [Object.assign] and [loadSettings] *)

Section settings.
Implicit Types (o target : Js.obj) (props : list (string * Js.value)).
Implicit Types (k : string) (v : Js.value) (h : Host) (w : World).

Lemma last_prop_cons k k' v props :
  Js.last_prop k ((k', v) :: props)
  = match Js.last_prop k props with
    | Some v' => Some v'
    | None => if decide (k' = k) then Some v else None
    end.
Proof. reflexivity. Qed.

(** After one source, a property has the last value that the source gives
    it, and else the value it had in the target. *)
Lemma lookup_assign1 target props k :
  Js.assign1 target props !! k
  = match Js.last_prop k props with
    | Some v => Some v
    | None => target !! k
    end.
Proof.
  revert target. induction props as [|[k' v] props IH]; intros target; [done|].
  unfold Js.assign1 in *. simpl foldl. rewrite IH, last_prop_cons.
  destruct (Js.last_prop k props); [done|]. simpl.
  rewrite lookup_insert. by destruct (decide (k' = k)).
Qed.

Lemma last_prop_Some_elem_of k v props :
  Js.last_prop k props = Some v → (k, v) ∈ props.
Proof.
  induction props as [|[k' v'] props IH]; [done|].
  rewrite last_prop_cons. destruct (Js.last_prop k props) as [v''|].
  - intros [= ->]. right. by apply IH.
  - destruct (decide (k' = k)) as [->|]; [|done]. intros [= ->]. left.
Qed.

Lemma last_prop_None k props :
  k ∉ props.*1 → Js.last_prop k props = None.
Proof.
  intros Hk. destruct (Js.last_prop k props) as [v|] eqn:E; [|done].
  destruct Hk. apply last_prop_Some_elem_of in E.
  by apply (list_elem_of_fmap_2 fst) in E.
Qed.

Lemma last_prop_NoDup k v props :
  NoDup props.*1 → (k, v) ∈ props → Js.last_prop k props = Some v.
Proof.
  induction props as [|[k' v'] props IH]; intros Hnd Hin.
  - by apply elem_of_nil in Hin.
  - rewrite fmap_cons in Hnd. apply NoDup_cons in Hnd as [Hk' Hnd].
    simpl in Hk'.
    rewrite last_prop_cons. apply elem_of_cons in Hin as [[= <- <-]|Hin].
    + rewrite (last_prop_None _ _ Hk'). by rewrite decide_True.
    + by rewrite (IH Hnd Hin).
Qed.

(** Copying every property of an object to the empty object gives an
    equal object. *)
Lemma assign1_empty_map_to_list o : Js.assign1 ∅ (map_to_list o) = o.
Proof.
  apply map_eq. intros k. rewrite lookup_assign1.
  destruct (o !! k) as [v|] eqn:E.
  - apply elem_of_map_to_list in E.
    by rewrite (last_prop_NoDup _ _ _ (NoDup_fst_map_to_list o) E).
  - destruct (Js.last_prop k (map_to_list o)) as [v|] eqn:E'; [|done].
    apply last_prop_Some_elem_of, elem_of_map_to_list in E'. congruence.
Qed.

Lemma loadSettings_run h w :
  loadSettings h w
  = (Returned tt,
     {| DEFAULT_SETTINGS := DEFAULT_SETTINGS w;
        settings := Own (Js.assign1 (DEFAULT_SETTINGS w) (Js.own_props (data w)));
        data := data w; events := events w |}).
Proof.
  unfold loadSettings, Js.assign. simpl. by rewrite assign1_empty_map_to_list.
Qed.



(** With nothing stored the settings are the defaults. *)
Lemma loadSettings_nothing_stored h :
  loadSettings h (initial Js.Null) = (Returned tt, sample_world).
Proof. by rewrite loadSettings_run. Qed.


(** A stored value is kept as it is, whatever it is. *)
Example loadSettings_keeps_stored_value :
  Js.get (this_settings
            (loadSettings (sample_host None [] None)
               (initial (Js.Object [("quoteStyle", Js.Str "backtick")]))).2)
    "quoteStyle" = Js.Str "backtick".
Proof. vm_compute. reflexivity. Qed.

End settings.

(** ** [copyPathsToClipboard] *)

Section copyPathsToClipboard.
Implicit Types (files : list TAbstractFile) (h : Host) (w : World).
Implicit Types (e : Event) (err : Js.value).

Lemma this_settings_log e w : this_settings (log e w) = this_settings w.
Proof. reflexivity. Qed.

Lemma events_log e w : events (log e w) = events w ++ [e].
Proof. reflexivity. Qed.

Lemma same_settings_log e w : same_settings w (log e w).
Proof. by repeat split. Qed.

(** The three ways in which a call ends. *)
Lemma copyPathsToClipboard_run files h w :
  copyPathsToClipboard files h w
  = let paths := collectAllPaths files in
    let text := formatPaths (this_settings w) paths in
    let written := log (EWriteText text) w in
    if bool_decide (length paths = 0) then
      (Returned tt, log (ENotice "No paths to copy") w)
    else
      match writeText h text with
      | None =>
          (Returned tt,
           if Js.truthy (Js.get (this_settings w) "showNotice")
           then log (ENotice (if bool_decide (length paths = 1)
                              then "Path copied"
                              else pretty (length paths) +:+ " paths copied"))
                  written
           else written)
      | Some err =>
          (Returned tt,
           log (EConsoleError "Copy failed:" err)
             (log (ENotice "Failed to copy to clipboard") written))
      end.
Proof.
  unfold copyPathsToClipboard. simpl.
  destruct (bool_decide (length (collectAllPaths files) = 0)); [done|].
  unfold try_catch, clipboard_writeText, mbind, M_bind, world, host, emit.
  simpl. destruct (writeText h _) as [err|]; simpl; [done|].
  rewrite this_settings_log.
  by destruct (Js.truthy (Js.get (this_settings w) "showNotice")).
Qed.

(** C2 ([copyPathsToClipboard], lines 183-189).  When no path is
    collected, [copyPathsToClipboard] returns, and all it does is to show
    the notice "No paths to copy": the clipboard is not written. *)
Theorem copyPathsToClipboard_no_paths files h w :
  collectAllPaths files = [] →
  copyPathsToClipboard files h w
  = (Returned tt, log (ENotice "No paths to copy") w).
Proof. intros Hnil. rewrite copyPathsToClipboard_run. simpl. by rewrite Hnil. Qed.

Lemma copyPathsToClipboard_no_paths_witness :
  collectAllPaths [TOther "x"] = [] ∧
  copyPathsToClipboard [TOther "x"] (sample_host None [] None) sample_world
  = (Returned tt, log (ENotice "No paths to copy") sample_world).
Proof.
  split; [reflexivity|]. by apply copyPathsToClipboard_no_paths.
Defined.

Example copyPathsToClipboard_empty_input h w :
  copyPathsToClipboard [] h w
  = (Returned tt, log (ENotice "No paths to copy") w).
Proof. by rewrite copyPathsToClipboard_run. Qed.

(** C4 ([copyPathsToClipboard], lines 193-201).  When paths are collected
    and the clipboard takes the text, [copyPathsToClipboard] returns
    after the write; with [showNotice] on it then shows one notice, "Path
    copied" for one path and the count followed by " paths copied" for
    more, and with [showNotice] off it shows none. *)
Theorem copyPathsToClipboard_success files h w :
  collectAllPaths files ≠ [] →
  writeText h (formatPaths (this_settings w) (collectAllPaths files)) = None →
  (copyPathsToClipboard files h w).1 = Returned tt ∧
  same_settings w (copyPathsToClipboard files h w).2 ∧
  (Js.truthy (Js.get (this_settings w) "showNotice") = true →
   length (collectAllPaths files) = 1 →
   events (copyPathsToClipboard files h w).2
   = events w
       ++ [EWriteText (formatPaths (this_settings w) (collectAllPaths files));
           ENotice "Path copied"]) ∧
  (Js.truthy (Js.get (this_settings w) "showNotice") = true →
   1 < length (collectAllPaths files) →
   events (copyPathsToClipboard files h w).2
   = events w
       ++ [EWriteText (formatPaths (this_settings w) (collectAllPaths files));
           ENotice (pretty (length (collectAllPaths files))
                      +:+ " paths copied")]) ∧
  (Js.truthy (Js.get (this_settings w) "showNotice") = false →
   events (copyPathsToClipboard files h w).2
   = events w
       ++ [EWriteText (formatPaths (this_settings w) (collectAllPaths files))]).
Proof.
  intros Hne Hok. rewrite copyPathsToClipboard_run. simpl.
  rewrite bool_decide_eq_false_2 by (by destruct (collectAllPaths files)).
  rewrite Hok. simpl. split; [done|].
  destruct (Js.truthy (Js.get (this_settings w) "showNotice")).
  - split; [done|]. split; [|split; [|done]].
    + intros _ Hlen. simpl. rewrite Hlen. simpl. by rewrite <- app_assoc.
    + intros _ Hlen. simpl.
      rewrite bool_decide_eq_false_2 by lia. by rewrite <- app_assoc.
  - split; [done|]. by repeat split.
Qed.

Lemma copyPathsToClipboard_success_witness :
  collectAllPaths [TFile "notes/a.md"; TFile "notes/b.md"] ≠ [] ∧
  writeText (sample_host None [] None)
    (formatPaths (this_settings sample_world)
       (collectAllPaths [TFile "notes/a.md"; TFile "notes/b.md"])) = None ∧
  events (copyPathsToClipboard [TFile "notes/a.md"; TFile "notes/b.md"]
            (sample_host None [] None) sample_world).2
  = [EWriteText "'notes/a.md', 'notes/b.md'"; ENotice "2 paths copied"].
Proof.
  split; [discriminate|]. split; [reflexivity|].
  destruct (copyPathsToClipboard_success
              [TFile "notes/a.md"; TFile "notes/b.md"]
              (sample_host None [] None) sample_world)
    as (_ & _ & _ & Hmany & _); [discriminate|reflexivity|].
  rewrite Hmany; [reflexivity|reflexivity|]. vm_compute. lia.
Defined.

Example copyPathsToClipboard_one_path :
  copyPathsToClipboard [TFile "notes/a.md"] (sample_host None [] None)
    sample_world
  = (Returned tt,
     log (ENotice "Path copied") (log (EWriteText "'notes/a.md'") sample_world)).
Proof. vm_compute. reflexivity. Qed.

(** C5 ([copyPathsToClipboard], lines 202-205).  When the clipboard
    rejects the text, [copyPathsToClipboard] shows the notice "Failed to
    copy to clipboard", whatever [showNotice] is, logs the error on the
    console, and returns: nothing is thrown to the caller. *)
Theorem copyPathsToClipboard_write_rejected files h w err :
  collectAllPaths files ≠ [] →
  writeText h (formatPaths (this_settings w) (collectAllPaths files)) = Some err →
  copyPathsToClipboard files h w
  = (Returned tt,
     log (EConsoleError "Copy failed:" err)
       (log (ENotice "Failed to copy to clipboard")
          (log (EWriteText
                  (formatPaths (this_settings w) (collectAllPaths files)))
             w))).
Proof.
  intros Hne Hrej. rewrite copyPathsToClipboard_run. simpl.
  rewrite bool_decide_eq_false_2 by (by destruct (collectAllPaths files)).
  by rewrite Hrej.
Qed.

Lemma copyPathsToClipboard_write_rejected_witness :
  collectAllPaths [TFile "notes/a.md"] ≠ [] ∧
  writeText (sample_host None [] (Some (Js.Str "NotAllowedError")))
    (formatPaths (this_settings sample_world)
       (collectAllPaths [TFile "notes/a.md"]))
  = Some (Js.Str "NotAllowedError") ∧
  copyPathsToClipboard [TFile "notes/a.md"]
    (sample_host None [] (Some (Js.Str "NotAllowedError"))) sample_world
  = (Returned tt,
     log (EConsoleError "Copy failed:" (Js.Str "NotAllowedError"))
       (log (ENotice "Failed to copy to clipboard")
          (log (EWriteText
                  (formatPaths (this_settings sample_world)
                     (collectAllPaths [TFile "notes/a.md"])))
             sample_world))).
Proof.
  split; [discriminate|]. split; [reflexivity|].
  apply copyPathsToClipboard_write_rejected; [discriminate|reflexivity].
Defined.

(** Every call returns. *)
Lemma copyPathsToClipboard_returns files h w :
  (copyPathsToClipboard files h w).1 = Returned tt.
Proof.
  rewrite copyPathsToClipboard_run. simpl.
  destruct (bool_decide _); [done|]. by destruct (writeText h _).
Qed.

Lemma copyPathsToClipboard_preserves_settings files :
  preserves_settings (copyPathsToClipboard files).
Proof.
  intros h w. rewrite copyPathsToClipboard_run. simpl.
  destruct (bool_decide _); [apply same_settings_log|].
  destruct (writeText h _); [by repeat split|].
  destruct (Js.truthy _); by repeat split.
Qed.

End copyPathsToClipboard.

(** ** Resolving the entries to copy *)

Section selection.
Implicit Types (h : Host) (w : World) (files : list TAbstractFile).
Implicit Types (items : list (string * FileItem)).
Implicit Types (selectedFiles : list TAbstractFile).

Lemma copyActiveFilePath_run h w :
  copyActiveFilePath h w
  = match getActiveFile h with
    | Some activeFile => copyPathsToClipboard [activeFile] h w
    | None => (Returned tt, log (ENotice "No active file") w)
    end.
Proof.
  unfold copyActiveFilePath, mbind, M_bind, host. simpl.
  by destruct (getActiveFile h).
Qed.

(** C6 ([copyActiveFilePath], lines 99-106).  Without an active file,
    [copyActiveFilePath] returns, and all it does is to show the notice
    "No active file": no path is collected or formatted and the clipboard
    is not written.  With an active file it does what
    [copyPathsToClipboard] does for that one file. *)
Theorem copyActiveFilePath_cases h w :
  (getActiveFile h = None →
   copyActiveFilePath h w = (Returned tt, log (ENotice "No active file") w)) ∧
  (∀ activeFile, getActiveFile h = Some activeFile →
   copyActiveFilePath h w = copyPathsToClipboard [activeFile] h w).
Proof.
  rewrite copyActiveFilePath_run. split.
  - by intros ->.
  - by intros activeFile ->.
Qed.

Lemma copyActiveFilePath_cases_witness :
  (getActiveFile (sample_host None [] None) = None ∧
   copyActiveFilePath (sample_host None [] None) sample_world
   = (Returned tt, log (ENotice "No active file") sample_world)) ∧
  (getActiveFile (sample_host (Some (TFile "notes/a.md")) [] None)
   = Some (TFile "notes/a.md") ∧
   copyActiveFilePath (sample_host (Some (TFile "notes/a.md")) [] None)
     sample_world
   = copyPathsToClipboard [TFile "notes/a.md"]
       (sample_host (Some (TFile "notes/a.md")) [] None) sample_world).
Proof.
  split; (split; [reflexivity|]).
  - by apply (copyActiveFilePath_cases (sample_host None [] None) sample_world).
  - by apply (copyActiveFilePath_cases
                (sample_host (Some (TFile "notes/a.md")) [] None) sample_world).
Defined.

(** The query reads the file items when the first file-explorer leaf, its
    view and the view's [fileItems] are there, and is empty otherwise. *)
Lemma getSelectedFilesFromExplorer_fileItems h w :
  getSelectedFilesFromExplorer h w
  = match explorer_fileItems h with
    | Some items => for_of getSelectedFiles_step [] items h w
    | None => (Returned [], w)
    end.
Proof.
  unfold getSelectedFilesFromExplorer, explorer_fileItems, mbind at 1, M_bind, host.
  destruct (head (getLeavesOfType h "file-explorer")) as [leaf|]; [|done].
  simpl. destruct (view leaf) as [v|]; [|done]. simpl.
  by destruct (fileItems v).
Qed.

Lemma for_of_cons {A B} (step : B → A → M B) (acc : B) (x : A) (l : list A) h w :
  for_of step acc (x :: l) h w
  = match step acc x h w with
    | (Returned acc', w') => for_of step acc' l h w'
    | (Thrown err, w') => (Thrown err, w')
    end.
Proof. reflexivity. Qed.

(** One turn of the loop on an item that is seen through the guards. *)
Lemma getSelectedFiles_step_shaped files (entry : string * FileItem) h w :
  getSelectedFiles_step files (entry.1, Shaped entry.2) h w
  = (Returned
       (files ++ match (if is_selected entry.2
                        then getAbstractFileByPath h entry.1 else None) with
                 | Some file => [file]
                 | None => []
                 end), w).
Proof.
  unfold getSelectedFiles_step, mbind, M_bind, item_selected, host, mret, M_ret.
  simpl. destruct (is_selected entry.2); [|by rewrite app_nil_r].
  destruct (getAbstractFileByPath h entry.1); [done|by rewrite app_nil_r].
Qed.

(** One turn of the loop on what makes the code throw. *)
Lemma getSelectedFiles_step_throws files p (bad : ItemValue) h w :
  bad = Nullish ∨ bad = NoContainsMethod →
  getSelectedFiles_step files (p, bad) h w = (Thrown Js.TypeError, w).
Proof. by intros [->| ->]. Qed.

(** The loop keeps, in order, the vault's entry for each item that is
    marked selected; an item without [selfEl] or [classList], and a path
    that the vault does not know, are passed over. *)
Lemma getSelectedFiles_loop h w files items :
  for_of getSelectedFiles_step files (shaped items) h w
  = (Returned
       (files
          ++ omap (λ entry, if is_selected entry.2
                            then getAbstractFileByPath h entry.1 else None)
               items), w).
Proof.
  revert files. induction items as [|entry items IH]; intros files.
  - simpl. by rewrite app_nil_r.
  - unfold shaped. rewrite fmap_cons. fold (shaped items).
    rewrite for_of_cons, getSelectedFiles_step_shaped, IH.
    change (omap ?f (entry :: items))
      with (match f entry with
            | Some y => y :: omap f items
            | None => omap f items
            end).
    destruct (if is_selected entry.2 then getAbstractFileByPath h entry.1
              else None); by rewrite <- ?app_assoc, ?app_nil_r.
Qed.

(** The loop stops with a [TypeError] at the first item that is [null] or
    [undefined], or whose class list has no [contains]. *)
Lemma getSelectedFiles_loop_throws h w files pre p (bad : ItemValue) rest :
  bad = Nullish ∨ bad = NoContainsMethod →
  for_of getSelectedFiles_step files (shaped pre ++ (p, bad) :: rest) h w
  = (Thrown Js.TypeError, w).
Proof.
  intros Hbad. revert files. induction pre as [|entry pre IH]; intros files.
  - simpl app. by rewrite for_of_cons, getSelectedFiles_step_throws.
  - unfold shaped. rewrite fmap_cons. fold (shaped pre).
    rewrite <- app_comm_cons, for_of_cons, getSelectedFiles_step_shaped.
    apply IH.
Qed.

(** The query writes nothing. *)
Lemma getSelectedFiles_loop_state h w files (raw : list (string * ItemValue)) :
  (for_of getSelectedFiles_step files raw h w).2 = w.
Proof.
  revert files. induction raw as [|[p item] raw IH]; intros files; [done|].
  rewrite for_of_cons. destruct item as [| |item].
  - done.
  - done.
  - rewrite (getSelectedFiles_step_shaped files (p, item)). apply IH.
Qed.

Lemma getSelectedFilesFromExplorer_state h w :
  (getSelectedFilesFromExplorer h w).2 = w.
Proof.
  rewrite getSelectedFilesFromExplorer_fileItems.
  destruct (explorer_fileItems h); [apply getSelectedFiles_loop_state|done].
Qed.

Lemma copySelectedFilesPaths_run h w :
  copySelectedFilesPaths h w
  = match (getSelectedFilesFromExplorer h w).1 with
    | Returned selectedFiles =>
        if bool_decide (0 < length selectedFiles)
        then copyPathsToClipboard selectedFiles h w
        else copyActiveFilePath h w
    | Thrown err => (Thrown err, w)
    end.
Proof.
  unfold copySelectedFilesPaths, mbind, M_bind.
  pose proof (getSelectedFilesFromExplorer_state h w) as Hw.
  destruct (getSelectedFilesFromExplorer h w) as [[selectedFiles|err] w'];
    simpl in *; subst; [by destruct (bool_decide _)|done].
Qed.

(** No item marked selected, no selected file. *)
Lemma getSelectedFiles_none_selected h w items :
  Forall (λ entry, is_selected entry.2 = false) items →
  for_of getSelectedFiles_step [] (shaped items) h w = (Returned [], w).
Proof.
  intros Hall. rewrite getSelectedFiles_loop. simpl. do 2 f_equal.
  induction Hall as [|entry items Hentry _ IH]; [done|].
  simpl. by rewrite Hentry.
Qed.

Lemma is_selected_no_classList (item : FileItem) :
  selfEl item = None ∨ (∃ el, selfEl item = Some el ∧ classList el = None) →
  is_selected item = false.
Proof.
  unfold is_selected. intros [->|(el & -> & ->)]; done.
Qed.

(** C7 ([copySelectedFilesPaths], lines 111-121, and
    [getSelectedFilesFromExplorer], lines 126-152), as amended.  The query
    for the selected entries returns the empty sequence when there is no
    file-explorer leaf, when the leaf has no view, when the view has no
    [fileItems], and when every file item is an object of which the
    element or the class list of the element is missing; and when the
    query returns the empty sequence, [copySelectedFilesPaths] does what
    [copyActiveFilePath] does, the notice for no active file included. *)
Theorem copySelectedFilesPaths_fallback h w :
  (getLeavesOfType h "file-explorer" = [] →
   getSelectedFilesFromExplorer h w = (Returned [], w)) ∧
  (∀ leaf leaves, getLeavesOfType h "file-explorer" = leaf :: leaves →
   view leaf = None → getSelectedFilesFromExplorer h w = (Returned [], w)) ∧
  (∀ leaf leaves v, getLeavesOfType h "file-explorer" = leaf :: leaves →
   view leaf = Some v → fileItems v = None →
   getSelectedFilesFromExplorer h w = (Returned [], w)) ∧
  (∀ leaf leaves v items, getLeavesOfType h "file-explorer" = leaf :: leaves →
   view leaf = Some v → fileItems v = Some (shaped items) →
   Forall (λ entry, selfEl entry.2 = None ∨
                    ∃ el, selfEl entry.2 = Some el ∧ classList el = None)
     items →
   getSelectedFilesFromExplorer h w = (Returned [], w)) ∧
  (getSelectedFilesFromExplorer h w = (Returned [], w) →
   copySelectedFilesPaths h w = copyActiveFilePath h w).
Proof.
  rewrite !getSelectedFilesFromExplorer_fileItems. unfold explorer_fileItems.
  split; [by intros ->|].
  split; [intros leaf leaves Hl Hv; rewrite Hl; simpl; by rewrite Hv|].
  split; [intros leaf leaves v Hl Hv Hitems; rewrite Hl; simpl;
          by rewrite Hv; simpl; rewrite Hitems|].
  split.
  { intros leaf leaves v items Hl Hv Hitems Hall. rewrite Hl. simpl.
    rewrite Hv. simpl. rewrite Hitems. apply getSelectedFiles_none_selected.
    eapply Forall_impl; [exact Hall|]. intros entry.
    apply is_selected_no_classList. }
  fold (explorer_fileItems h). rewrite <- getSelectedFilesFromExplorer_fileItems.
  intros Hnil. rewrite copySelectedFilesPaths_run. by rewrite Hnil.
Qed.

Lemma copySelectedFilesPaths_fallback_witness :
  getLeavesOfType (sample_host None [] None) "file-explorer" = [] ∧
  getSelectedFilesFromExplorer (sample_host None [] None) sample_world
  = (Returned [], sample_world) ∧
  copySelectedFilesPaths (sample_host None [] None) sample_world
  = copyActiveFilePath (sample_host None [] None) sample_world.
Proof.
  destruct (copySelectedFilesPaths_fallback (sample_host None [] None)
              sample_world) as (Hleaf & _ & _ & _ & Hfallback).
  split; [reflexivity|]. split; [by apply Hleaf|].
  apply Hfallback. by apply Hleaf.
Defined.

(** Where the file items hold [null] in place of an item, the query does
    not return the empty sequence: it throws, and so does
    [copySelectedFilesPaths], which does not fall back to the active
    file. *)
Lemma getSelectedFilesFromExplorer_null_item_throws :
  getSelectedFilesFromExplorer
    (sample_host (Some (TFile "active.md"))
       [sample_leaf_raw [("a.md", Nullish)]] None)
    sample_world
  = (Thrown Js.TypeError, sample_world) ∧
  copySelectedFilesPaths
    (sample_host (Some (TFile "active.md"))
       [sample_leaf_raw [("a.md", Nullish)]] None)
    sample_world
  = (Thrown Js.TypeError, sample_world) ∧
  copySelectedFilesPaths
    (sample_host (Some (TFile "active.md"))
       [sample_leaf_raw [("a.md", Nullish)]] None)
    sample_world
  ≠ copyActiveFilePath
      (sample_host (Some (TFile "active.md"))
         [sample_leaf_raw [("a.md", Nullish)]] None)
      sample_world.
Proof.
  assert (copySelectedFilesPaths
            (sample_host (Some (TFile "active.md"))
               [sample_leaf_raw [("a.md", Nullish)]] None)
            sample_world
          = (Thrown Js.TypeError, sample_world)) as Hthrows
    by (vm_compute; reflexivity).
  split; [vm_compute; reflexivity|]. split; [exact Hthrows|].
  rewrite Hthrows, copyActiveFilePath_run. simpl.
  rewrite copyPathsToClipboard_run. simpl. discriminate.
Qed.

(** The same where the class list of an item's element has no
    [contains]. *)
Example getSelectedFilesFromExplorer_no_contains_throws :
  copySelectedFilesPaths
    (sample_host (Some (TFile "active.md"))
       [sample_leaf_raw
          [("a.md", Shaped (sample_item ["is-selected"]));
           ("b.md", NoContainsMethod)]] None)
    sample_world
  = (Thrown Js.TypeError, sample_world).
Proof. vm_compute. reflexivity. Qed.

(** With a selection, the selected entries are copied. *)
Lemma copySelectedFilesPaths_selection h w selectedFiles :
  getSelectedFilesFromExplorer h w = (Returned selectedFiles, w) →
  selectedFiles ≠ [] →
  copySelectedFilesPaths h w = copyPathsToClipboard selectedFiles h w.
Proof.
  intros Hquery Hsel. rewrite copySelectedFilesPaths_run, Hquery. simpl.
  rewrite bool_decide_eq_true_2; [done|].
  destruct selectedFiles; [done|simpl; lia].
Qed.

Example copySelectedFilesPaths_two_selected :
  events
    (copySelectedFilesPaths
       (sample_host None
          [sample_leaf
             [("a.md", sample_item ["nav-file-title"; "is-selected"]);
              ("b.md", sample_item ["nav-file-title"]);
              ("c", {| selfEl := None |});
              ("d.md", sample_item ["is-selected"])]]
          None)
       sample_world).2
  = [EWriteText "'a.md', 'd.md'"; ENotice "2 paths copied"].
Proof. vm_compute. reflexivity. Qed.

End selection.

(** ** Who writes the settings *)

Section frame.
Implicit Types (h : Host) (w : World) (a : Action) (k : string).
Implicit Types (v : Js.value).

Lemma copyActiveFilePath_preserves_settings :
  preserves_settings copyActiveFilePath.
Proof.
  intros h w. rewrite copyActiveFilePath_run.
  destruct (getActiveFile h) as [activeFile|].
  - apply copyPathsToClipboard_preserves_settings.
  - apply same_settings_log.
Qed.

Lemma copySelectedFilesPaths_preserves_settings :
  preserves_settings copySelectedFilesPaths.
Proof.
  intros h w. rewrite copySelectedFilesPaths_run.
  destruct (getSelectedFilesFromExplorer h w).1 as [selectedFiles|err].
  - destruct (bool_decide _).
    + apply copyPathsToClipboard_preserves_settings.
    + apply copyActiveFilePath_preserves_settings.
  - by repeat split.
Qed.

(** A change handler writes one property of the settings, and then has
    them stored; when the store rejects, the write has been made and the
    rejection is thrown. *)
Lemma change_handler_run k v h w :
  (set_setting k v;; saveSettings) h w
  = match saveData h (settings_to_store (setting_written k v w)) with
    | None =>
        (Returned tt,
         with_data (settings_to_store (setting_written k v w))
           (setting_written k v w))
    | Some err => (Thrown err, setting_written k v w)
    end.
Proof.
  unfold mbind, M_bind, set_setting, saveSettings. simpl.
  fold (setting_written k v w).
  fold (settings_to_store (setting_written k v w)).
  by destruct (saveData h _).
Qed.

Lemma this_settings_setting_written k v w :
  this_settings (setting_written k v w) = <[k := v]> (this_settings w).
Proof. unfold this_settings, setting_written. by destruct (settings w). Qed.

Lemma change_handler_settings k v h w :
  this_settings ((set_setting k v;; saveSettings) h w).2
  = <[k := v]> (this_settings w).
Proof.
  rewrite change_handler_run.
  destruct (saveData h _); apply this_settings_setting_written.
Qed.

(** What each registered callback does to the settings. *)
Lemma run_action_settings a h w :
  match a with
  | ToggleShowNotice value =>
      this_settings (run_action a h w).2
      = <["showNotice" := Js.Bool value]> (this_settings w)
  | SelectQuoteStyle value =>
      this_settings (run_action a h w).2
      = <["quoteStyle" := Js.Str (QuoteStyle_str value)]> (this_settings w)
  | _ => same_settings w (run_action a h w).2
  end.
Proof.
  destruct a as [| | |file|files|value|value]; simpl.
  - apply copyActiveFilePath_preserves_settings.
  - apply copyActiveFilePath_preserves_settings.
  - apply copySelectedFilesPaths_preserves_settings.
  - apply copyPathsToClipboard_preserves_settings.
  - apply copyPathsToClipboard_preserves_settings.
  - apply (change_handler_settings "showNotice" _ h w).
  - apply (change_handler_settings "quoteStyle" _ h w).
Qed.

(** C10 ([copyPathsToClipboard], [copyActiveFilePath],
    [copySelectedFilesPaths], and the change handlers of
    [CopyPathSettingTab.display], lines 224-248).  The three copy methods
    leave the settings as they are, in memory and stored, whatever the
    host answers: with and without an active file or a selection, and
    whether the clipboard takes the text or rejects it.  ([collectAllPaths]
    and [formatPaths] are functions of their arguments: they have no state
    to change.)  Of the callbacks that the plugin registers, only the two
    change handlers of the settings tab write the settings, each the
    field of its control. *)
Theorem copy_operations_preserve_settings :
  (∀ files, preserves_settings (copyPathsToClipboard files)) ∧
  preserves_settings copyActiveFilePath ∧
  preserves_settings copySelectedFilesPaths ∧
  (∀ a h w,
     match a with
     | ToggleShowNotice value =>
         this_settings (run_action a h w).2
         = <["showNotice" := Js.Bool value]> (this_settings w)
     | SelectQuoteStyle value =>
         this_settings (run_action a h w).2
         = <["quoteStyle" := Js.Str (QuoteStyle_str value)]> (this_settings w)
     | _ => same_settings w (run_action a h w).2
     end).
Proof.
  split; [apply copyPathsToClipboard_preserves_settings|].
  split; [apply copyActiveFilePath_preserves_settings|].
  split; [apply copySelectedFilesPaths_preserves_settings|].
  apply run_action_settings.
Qed.

(** X18 ([loadSettings], lines 88-90, the field initialiser, line 24, and
    the change handlers, lines 230-247).  Once the settings are loaded,
    [this.settings] is an object of its own and no longer the object of the
    defaults, so the changes made in the settings tab never write the
    defaults: they stay as in the source. *)
Lemma reachable_defaults w :
  reachable w →
  DEFAULT_SETTINGS w = DEFAULT_SETTINGS_literal ∧ ∃ o, settings w = Own o.
Proof.
  induction 1 as [stored h|w a h _ [IHdef [o IHown]]].
  - rewrite loadSettings_run. simpl. eauto.
  - assert (same_settings w (run_action a h w).2 →
            DEFAULT_SETTINGS (run_action a h w).2 = DEFAULT_SETTINGS_literal ∧
            ∃ o', settings (run_action a h w).2 = Own o') as Hsame.
    { intros (-> & -> & _). eauto. }
    pose proof (run_action_settings a h w) as Hact.
    destruct a as [| | |file|files|value|value]; try (by apply Hsame).
    + change (run_action (ToggleShowNotice value) h w)
        with ((set_setting "showNotice" (Js.Bool value);; saveSettings) h w).
      rewrite change_handler_run. unfold setting_written. rewrite IHown.
      destruct (saveData h _); simpl; eauto.
    + change (run_action (SelectQuoteStyle value) h w)
        with ((set_setting "quoteStyle" (Js.Str (QuoteStyle_str value));;
               saveSettings) h w).
      rewrite change_handler_run. unfold setting_written. rewrite IHown.
      destruct (saveData h _); simpl; eauto.
Qed.

Lemma reachable_defaults_witness :
  reachable
    (run_action (ToggleShowNotice false) (sample_host None [] None)
       (loadSettings (sample_host None [] None) (initial Js.Null)).2).2 ∧
  DEFAULT_SETTINGS
    (run_action (ToggleShowNotice false) (sample_host None [] None)
       (loadSettings (sample_host None [] None) (initial Js.Null)).2).2
  = DEFAULT_SETTINGS_literal.
Proof.
  assert (reachable
    (run_action (ToggleShowNotice false) (sample_host None [] None)
       (loadSettings (sample_host None [] None) (initial Js.Null)).2).2)
    as Hreach by (apply reachable_action, reachable_loaded).
  split; [exact Hreach|]. by apply reachable_defaults.
Defined.

(** Once the settings are loaded, both fields are properties of the
    settings object at every time, whatever was stored. *)
Lemma reachable_showNotice_quoteStyle w :
  reachable w →
  is_Some (this_settings w !! "showNotice") ∧
  is_Some (this_settings w !! "quoteStyle").
Proof.
  induction 1 as [stored h|w a h Hw [IHn IHq]].
  - rewrite loadSettings_run. unfold this_settings. simpl.
    rewrite !lookup_assign1.
    split; destruct (Js.last_prop _ _); by eauto.
  - pose proof (run_action_settings a h w) as Hact.
    destruct a as [| | |file|files|value|value];
      try (destruct Hact as (Hd & Hs & _); unfold this_settings;
           rewrite Hd, Hs; by split).
    + rewrite Hact. split.
      * rewrite lookup_insert_eq. by eauto.
      * by rewrite lookup_insert_ne.
    + rewrite Hact. split.
      * by rewrite lookup_insert_ne.
      * rewrite lookup_insert_eq. by eauto.
Qed.

End frame.

(** * Further properties *)

(** ** The output of [formatPaths] *)

Section formatPaths_output.
Implicit Types (settings : Js.obj) (qs : QuoteStyle) (paths : list string).
Implicit Types (s t : string).

Lemma str_length_app s t :
  String.length (s +:+ t) = String.length s + String.length t.
Proof.
  induction s as [|c s IH]; [done|]. rewrite str_app_cons. simpl. by rewrite IH.
Qed.

(** Whatever the settings hold, the quote is one of the two. *)
Lemma formatPaths_some_quote settings paths :
  ∃ qs, formatPaths settings paths = quoted_list (quote_char qs) paths.
Proof.
  rewrite formatPaths_join. simpl.
  destruct (Js.strict_eq_str (Js.get settings "quoteStyle") "single").
  - exists single. apply join_quoted.
  - exists double. apply join_quoted.
Qed.

Lemma quote_char_length qs : String.length (quote_char qs) = 1.
Proof. by destruct qs. Qed.

Lemma quoted_list_cons_cons quote p p' rest :
  quoted_list quote (p :: p' :: rest)
  = quote +:+ p +:+ quote +:+ ", " +:+ quoted_list quote (p' :: rest).
Proof. reflexivity. Qed.

Lemma quoted_list_app quote paths1 paths2 :
  paths1 ≠ [] → paths2 ≠ [] →
  quoted_list quote (paths1 ++ paths2)
  = quoted_list quote paths1 +:+ ", " +:+ quoted_list quote paths2.
Proof.
  intros Hne1 Hne2. destruct paths2 as [|p2 paths2]; [done|]. clear Hne2.
  destruct paths1 as [|p paths1]; [done|]. clear Hne1.
  revert p. induction paths1 as [|p' paths1 IH]; intros p.
  - simpl app. rewrite quoted_list_cons_cons. simpl. by rewrite !str_app_assoc.
  - change ((p :: p' :: paths1) ++ p2 :: paths2)
      with (p :: p' :: (paths1 ++ p2 :: paths2)).
    rewrite !quoted_list_cons_cons.
    change (p' :: (paths1 ++ p2 :: paths2)) with ((p' :: paths1) ++ p2 :: paths2).
    rewrite IH. by rewrite !str_app_assoc.
Qed.

Lemma quoted_list_length qs p paths :
  String.length (quoted_list (quote_char qs) (p :: paths)) + 2
  = sum_list ((λ p, String.length p + 4) <$> p :: paths).
Proof.
  revert p. induction paths as [|p' paths IH]; intros p.
  - simpl. rewrite !str_length_app, quote_char_length. lia.
  - rewrite quoted_list_cons_cons, fmap_cons.
    change (sum_list (String.length p + 4
                        :: ((λ p, String.length p + 4) <$> p' :: paths)))
      with (String.length p + 4
            + sum_list ((λ p, String.length p + 4) <$> p' :: paths)).
    rewrite <- IH, !str_length_app, quote_char_length. simpl. lia.
Qed.

(** X1 ([formatPaths], lines 175-178).  When the [quoteStyle] of the
    settings is anything but the string [single] (another string, a value
    that is no string, or no value at all), every path is put between
    double quotes. *)
Theorem formatPaths_not_single settings paths :
  Js.get settings "quoteStyle" ≠ Js.Str "single" →
  formatPaths settings paths = quoted_list dquote paths.
Proof.
  intros Hq. rewrite formatPaths_join. simpl.
  replace (Js.strict_eq_str (Js.get settings "quoteStyle") "single") with false.
  - apply join_quoted.
  - symmetry. destruct (Js.get settings "quoteStyle"); try done.
    simpl. apply bool_decide_eq_false. congruence.
Qed.

Lemma formatPaths_not_single_witness :
  Js.get (∅ : Js.obj) "quoteStyle" ≠ Js.Str "single" ∧
  formatPaths ∅ ["a.md"; "b.md"] = quoted_list dquote ["a.md"; "b.md"].
Proof.
  split; [discriminate|]. apply formatPaths_not_single. discriminate.
Defined.

(** X2 ([formatPaths], lines 175-178).  For at least one path the output
    is not the empty string, whatever the settings hold and even when the
    paths are empty strings. *)
Theorem formatPaths_nonempty settings paths :
  paths ≠ [] → formatPaths settings paths ≠ "".
Proof.
  intros Hne. destruct (formatPaths_some_quote settings paths) as [qs ->].
  by apply quoted_list_nonempty.
Qed.

Lemma formatPaths_nonempty_witness :
  [""] ≠ [] ∧ formatPaths DEFAULT_SETTINGS_literal [""] ≠ "".
Proof. split; [discriminate|]. apply formatPaths_nonempty. discriminate. Defined.

(** X3 ([formatPaths], lines 175-178).  The output for two sequences of
    paths one after the other, neither empty, is the output for the first,
    a comma and a space, and the output for the second. *)
Theorem formatPaths_app settings paths1 paths2 :
  paths1 ≠ [] → paths2 ≠ [] →
  formatPaths settings (paths1 ++ paths2)
  = formatPaths settings paths1 +:+ ", " +:+ formatPaths settings paths2.
Proof.
  intros Hne1 Hne2. rewrite !formatPaths_join. simpl.
  rewrite !join_quoted. by apply quoted_list_app.
Qed.

Lemma formatPaths_app_witness :
  ["a.md"] ≠ [] ∧ ["b.md"; "c.md"] ≠ [] ∧
  formatPaths DEFAULT_SETTINGS_literal (["a.md"] ++ ["b.md"; "c.md"])
  = formatPaths DEFAULT_SETTINGS_literal ["a.md"] +:+ ", "
      +:+ formatPaths DEFAULT_SETTINGS_literal ["b.md"; "c.md"].
Proof.
  split; [discriminate|]. split; [discriminate|].
  apply formatPaths_app; discriminate.
Defined.

(** X4 ([formatPaths], lines 175-178).  For at least one path, the output
    is as long as the paths together, plus two quotes for each path, plus a
    comma and a space between one path and the next. *)
Theorem formatPaths_length settings paths :
  paths ≠ [] →
  String.length (formatPaths settings paths) + 2
  = sum_list ((λ p, String.length p + 4) <$> paths).
Proof.
  intros Hne. destruct (formatPaths_some_quote settings paths) as [qs ->].
  destruct paths as [|p paths]; [done|]. apply quoted_list_length.
Qed.

Lemma formatPaths_length_witness :
  ["a.md"; "b.md"] ≠ [] ∧
  String.length (formatPaths DEFAULT_SETTINGS_literal ["a.md"; "b.md"]) + 2
  = sum_list ((λ p, String.length p + 4) <$> ["a.md"; "b.md"]).
Proof. split; [discriminate|]. apply formatPaths_length. discriminate. Defined.

End formatPaths_output.

(** ** The result of [collectAllPaths] *)

Section collectAllPaths_result.
Implicit Types (items : list TAbstractFile) (item : TAbstractFile).

(** X5 ([collectAllPaths], lines 157-170).  Collecting the paths of two
    lists of entries one after the other gives the paths of the first
    followed by the paths of the second. *)
Theorem collectAllPaths_concat items1 items2 :
  collectAllPaths (items1 ++ items2)
  = collectAllPaths items1 ++ collectAllPaths items2.
Proof. by rewrite !collectAllPaths_filter, filter_app, fmap_app. Qed.

(** X6 ([collectAllPaths], lines 157-170).  There are never more paths
    than entries, and each path is the path of an entry of the input. *)
Theorem collectAllPaths_bounded items :
  length (collectAllPaths items) ≤ length items ∧
  ∀ p, p ∈ collectAllPaths items → ∃ item, item ∈ items ∧ path item = p.
Proof.
  rewrite collectAllPaths_filter. split.
  - rewrite length_fmap. apply length_filter.
  - intros p (item & -> & Hitem)%list_elem_of_fmap.
    apply list_elem_of_filter in Hitem as [_ Hitem]. eauto.
Qed.

(** X8 ([collectAllPaths], lines 157-170).  When every entry is a file or a
    folder, as the host's types promise, the result is the path of every
    entry: as many paths as entries. *)
Theorem collectAllPaths_files_and_folders items :
  Forall is_file_or_folder items →
  collectAllPaths items = path <$> items.
Proof.
  intros Hall. rewrite collectAllPaths_filter.
  f_equal. induction Hall as [|item items Hitem _ IH]; [done|].
  rewrite filter_cons. destruct (decide (is_file_or_folder item)); [|done].
  by rewrite IH.
Qed.

Lemma collectAllPaths_files_and_folders_witness :
  Forall is_file_or_folder [TFolder "notes" [TFile "notes/a.md"]; TFile "b.md"] ∧
  collectAllPaths [TFolder "notes" [TFile "notes/a.md"]; TFile "b.md"]
  = path <$> [TFolder "notes" [TFile "notes/a.md"]; TFile "b.md"].
Proof.
  assert (Forall is_file_or_folder
            [TFolder "notes" [TFile "notes/a.md"]; TFile "b.md"]) as Hall
    by (repeat constructor).
  split; [exact Hall|]. by apply collectAllPaths_files_and_folders.
Defined.

End collectAllPaths_result.

(** ** What a copy does to the clipboard and on the screen *)

Lemma writes_log (es : list Event) (e : Event) :
  writes (es ++ [e])
  = writes es ++ match e with EWriteText text => [text] | _ => [] end.
Proof. unfold writes. rewrite omap_app. by destruct e. Qed.

Lemma notices_log (es : list Event) (e : Event) :
  notices (es ++ [e])
  = notices es ++ match e with ENotice message => [message] | _ => [] end.
Proof. unfold notices. rewrite omap_app. by destruct e. Qed.

Ltac read_events :=
  simpl; rewrite ?writes_log, ?notices_log; simpl;
  rewrite ?app_nil_r, <- ?app_assoc; simpl.

Section copy_effects.
Implicit Types (files : list TAbstractFile) (h : Host) (w : World).
Implicit Types (e : Event) (a : Action).

Lemma collected_nil_length (paths : list string) :
  bool_decide (length paths = 0) = bool_decide (paths = []).
Proof. by destruct paths. Qed.

(** X9 ([onload], lines 30-78, [copyPathsToClipboard], lines 183-206,
    [getSelectedFilesFromExplorer], line 140, and the change handlers,
    lines 230-247).  Which callbacks return.  The ribbon icon, the command
    for the active file and the two menu items return, whatever the host
    answers: a rejection of the clipboard is caught.  The command for the
    selection returns when the query for the selection returns, and when
    the query throws, it throws the same, having done nothing.  A change
    handler returns when the store takes the settings, and when the store
    rejects, it throws the rejection, the store unchanged and the setting
    changed in memory. *)
Theorem run_action_outcome a h w :
  match a with
  | RibbonClick | CommandCopyActiveFilePath
  | FileMenuCopyPath _ | FilesMenuCopyPaths _ =>
      (run_action a h w).1 = Returned tt
  | CommandCopySelectedFilesPath =>
      match (getSelectedFilesFromExplorer h w).1 with
      | Returned _ => (run_action a h w).1 = Returned tt
      | Thrown err => run_action a h w = (Thrown err, w)
      end
  | ToggleShowNotice value =>
      match saveData h (settings_to_store
                          (setting_written "showNotice" (Js.Bool value) w)) with
      | None => (run_action a h w).1 = Returned tt
      | Some err =>
          run_action a h w
          = (Thrown err, setting_written "showNotice" (Js.Bool value) w)
      end
  | SelectQuoteStyle qs =>
      match saveData h (settings_to_store
                          (setting_written "quoteStyle"
                             (Js.Str (QuoteStyle_str qs)) w)) with
      | None => (run_action a h w).1 = Returned tt
      | Some err =>
          run_action a h w
          = (Thrown err,
             setting_written "quoteStyle" (Js.Str (QuoteStyle_str qs)) w)
      end
  end.
Proof.
  assert ((copyActiveFilePath h w).1 = Returned tt) as Hactive.
  { rewrite copyActiveFilePath_run.
    destruct (getActiveFile h); [apply copyPathsToClipboard_returns|done]. }
  destruct a as [| | |file|files|value|qs]; simpl;
    try exact Hactive; try apply copyPathsToClipboard_returns.
  - rewrite copySelectedFilesPaths_run.
    destruct (getSelectedFilesFromExplorer h w).1 as [selectedFiles|err]; [|done].
    destruct (bool_decide _); [apply copyPathsToClipboard_returns|exact Hactive].
  - unfold showNotice_onChange. rewrite change_handler_run.
    by destruct (saveData h _).
  - unfold quoteStyle_onChange. rewrite change_handler_run.
    by destruct (saveData h _).
Qed.

Example showNotice_onChange_store_rejects :
  showNotice_onChange false (sample_host_failing_store (Js.Error "Error"))
    sample_world
  = (Thrown (Js.Error "Error"),
     setting_written "showNotice" (Js.Bool false) sample_world).
Proof. vm_compute. reflexivity. Qed.

(** X10 ([copyPathsToClipboard], lines 183-206).  A call writes to the
    clipboard once when a path is collected, and the text is the collected
    paths formatted with the settings of that moment; it does not write
    when no path is collected. *)
Theorem copyPathsToClipboard_writes files h w :
  writes (events (copyPathsToClipboard files h w).2)
  = writes (events w)
      ++ if bool_decide (collectAllPaths files = []) then []
         else [formatPaths (this_settings w) (collectAllPaths files)].
Proof.
  rewrite copyPathsToClipboard_run. simpl. rewrite collected_nil_length.
  destruct (bool_decide (collectAllPaths files = [])).
  - by read_events.
  - destruct (writeText h _); [by read_events|].
    destruct (Js.truthy _); by read_events.
Qed.

(** X11 ([copyPathsToClipboard], lines 183-206).  A call shows at most one
    notice, and it shows none only when paths were collected, the clipboard
    took the text and [showNotice] is off. *)
Theorem copyPathsToClipboard_one_notice files h w :
  ∃ shown,
    notices (events (copyPathsToClipboard files h w).2)
    = notices (events w) ++ shown ∧
    length shown ≤ 1 ∧
    (shown = [] ↔
     collectAllPaths files ≠ [] ∧
     writeText h (formatPaths (this_settings w) (collectAllPaths files)) = None ∧
     Js.truthy (Js.get (this_settings w) "showNotice") = false).
Proof.
  rewrite copyPathsToClipboard_run. simpl. rewrite collected_nil_length.
  case_bool_decide as Hnil.
  - exists ["No paths to copy"]. read_events.
    split; [done|]. split; [done|]. split; [done|]. by intros [? _].
  - destruct (writeText h _) as [err|].
    + exists ["Failed to copy to clipboard"]. read_events.
      split; [done|]. split; [done|]. split; [done|]. by intros (_ & ? & _).
    + destruct (Js.truthy _).
      * eexists [_]. read_events.
        split; [done|]. split; [lia|]. split; [done|]. by intros (_ & _ & ?).
      * exists []. read_events. split; [done|]. split; [lia|]. done.
Qed.

Lemma collectAllPaths_filter_idem files :
  collectAllPaths (filter is_file_or_folder files) = collectAllPaths files.
Proof.
  rewrite !collectAllPaths_filter. f_equal.
  induction files as [|item files IH]; [done|].
  rewrite !filter_cons. destruct (decide (is_file_or_folder item)) as [Hitem|]; [|done].
  rewrite filter_cons, decide_True by done. by rewrite IH.
Qed.

(** X12 ([copyPathsToClipboard], lines 183-206, with [collectAllPaths],
    lines 157-170).  Entries that are neither files nor folders make no
    difference to a copy: the call does the same with them as without
    them. *)
Theorem copyPathsToClipboard_ignores_others files h w :
  copyPathsToClipboard (filter is_file_or_folder files) h w
  = copyPathsToClipboard files h w.
Proof.
  rewrite !copyPathsToClipboard_run. simpl.
  by rewrite collectAllPaths_filter_idem.
Qed.

Lemma formatPaths_singleton (settings : Js.obj) qs p :
  Js.get settings "quoteStyle" = Js.Str (QuoteStyle_str qs) →
  formatPaths settings [p] = quote_char qs +:+ p +:+ quote_char qs.
Proof.
  intros Hqs. rewrite formatPaths_join. simpl.
  rewrite (quote_selected _ _ Hqs). apply join_singleton.
Qed.

(** X13 ([copyActiveFilePath], lines 99-106, through
    [copyPathsToClipboard], [collectAllPaths] and [formatPaths]).  With an
    active file, copying the active file's path writes to the clipboard
    once: the path of that file between two quote characters of the
    configured style. *)
Theorem copyActiveFilePath_clipboard_text h w activeFile qs :
  getActiveFile h = Some activeFile →
  is_file_or_folder activeFile →
  Js.get (this_settings w) "quoteStyle" = Js.Str (QuoteStyle_str qs) →
  writes (events (copyActiveFilePath h w).2)
  = writes (events w) ++ [quote_char qs +:+ path activeFile +:+ quote_char qs].
Proof.
  intros Hactive Hfile Hqs. rewrite copyActiveFilePath_run, Hactive.
  rewrite copyPathsToClipboard_run. simpl.
  assert (collectAllPaths [activeFile] = [path activeFile]) as ->
    by (by destruct activeFile).
  simpl. rewrite (formatPaths_singleton _ _ _ Hqs).
  destruct (writeText h _); [by read_events|].
  destruct (Js.truthy _); by read_events.
Qed.

Lemma copyActiveFilePath_clipboard_text_witness :
  getActiveFile (sample_host (Some (TFile "notes/a.md")) [] None)
  = Some (TFile "notes/a.md") ∧
  is_file_or_folder (TFile "notes/a.md") ∧
  Js.get (this_settings sample_world) "quoteStyle"
  = Js.Str (QuoteStyle_str single) ∧
  writes (events (copyActiveFilePath
                    (sample_host (Some (TFile "notes/a.md")) [] None)
                    sample_world).2)
  = writes (events sample_world)
      ++ [quote_char single +:+ path (TFile "notes/a.md") +:+ quote_char single].
Proof.
  split; [reflexivity|]. split; [exact I|]. split; [vm_compute; reflexivity|].
  apply copyActiveFilePath_clipboard_text;
    [reflexivity|exact I|vm_compute; reflexivity].
Defined.

End copy_effects.

(** ** The selection of the file explorer *)

Section explorer_selection.
Implicit Types (h : Host) (w : World) (items : list (string * FileItem)).
Implicit Types (entry : string * FileItem).

(** X14 ([getSelectedFilesFromExplorer], lines 126-152).  The query gives,
    in the order of the file items, the vault's entry for each item whose
    element has the class [is-selected]; items without the class, items
    without an element or a class list, and paths that the vault does not
    know give nothing; and so does an explorer without file items.  Where
    an item is [null] or [undefined], or the class list of its element has
    no [contains], the query throws a [TypeError] instead. *)
Theorem getSelectedFilesFromExplorer_omap h w :
  (explorer_fileItems h = None →
   getSelectedFilesFromExplorer h w = (Returned [], w)) ∧
  (∀ items, explorer_fileItems h = Some (shaped items) →
   getSelectedFilesFromExplorer h w
   = (Returned
        (omap (λ entry, if is_selected entry.2
                        then getAbstractFileByPath h entry.1 else None) items),
      w)) ∧
  (∀ items p (bad : ItemValue) rest,
     explorer_fileItems h = Some (shaped items ++ (p, bad) :: rest) →
     bad = Nullish ∨ bad = NoContainsMethod →
     getSelectedFilesFromExplorer h w = (Thrown Js.TypeError, w)).
Proof.
  rewrite !getSelectedFilesFromExplorer_fileItems.
  split; [by intros ->|]. split.
  - intros items ->. by rewrite getSelectedFiles_loop.
  - intros items p bad rest -> Hbad. by apply getSelectedFiles_loop_throws.
Qed.

Lemma getSelectedFilesFromExplorer_omap_witness :
  explorer_fileItems
    (sample_host None
       [sample_leaf [("a.md", sample_item ["is-selected"]);
                     ("b.md", sample_item [])]] None)
  = Some (shaped [("a.md", sample_item ["is-selected"]);
                  ("b.md", sample_item [])]) ∧
  getSelectedFilesFromExplorer
    (sample_host None
       [sample_leaf [("a.md", sample_item ["is-selected"]);
                     ("b.md", sample_item [])]] None)
    sample_world
  = (Returned [TFile "a.md"], sample_world).
Proof.
  split; [reflexivity|].
  destruct (getSelectedFilesFromExplorer_omap
              (sample_host None
                 [sample_leaf [("a.md", sample_item ["is-selected"]);
                               ("b.md", sample_item [])]] None)
              sample_world) as (_ & Hshaped & _).
  rewrite (Hshaped [("a.md", sample_item ["is-selected"]);
                    ("b.md", sample_item [])] eq_refl).
  reflexivity.
Defined.









End explorer_selection.

(** ** The settings in memory and the stored data *)

Section settings_store.
Implicit Types (h : Host) (w : World) (o : Js.obj) (k : string).
Implicit Types (v : Js.value) (props : list (string * Js.value)).

Lemma json_props_with_cons (f : Js.value → Js.value) k v props :
  Js.json_props_with f ((k, v) :: props)
  = match v with
    | Js.Undefined => Js.json_props_with f props
    | _ => (k, f v) :: Js.json_props_with f props
    end.
Proof. by destruct v. Qed.

(** Storing adds no property. *)
Lemma json_props_with_keys (f : Js.value → Js.value) props k :
  k ∈ (Js.json_props_with f props).*1 → k ∈ props.*1.
Proof.
  induction props as [|[k' v'] props IH]; [done|].
  rewrite json_props_with_cons, fmap_cons. simpl.
  destruct v'; rewrite ?fmap_cons; simpl; intros Hk;
    try (apply elem_of_cons in Hk as [->|Hk]; [by left|right; by apply IH]).
  right. by apply IH.
Qed.

Lemma stored_as_is_json v : stored_as_is v → Js.json v = v.
Proof. by destruct v. Qed.

(** A property that is stored as it is is read back from the store. *)
Lemma last_prop_json_props k v props :
  NoDup props.*1 → (k, v) ∈ props → stored_as_is v →
  Js.last_prop k (Js.json_props_with Js.json props) = Some v.
Proof.
  intros Hnd Hin Hv. induction props as [|[k' v'] props IH].
  - by apply elem_of_nil in Hin.
  - rewrite fmap_cons in Hnd. apply NoDup_cons in Hnd as [Hk' Hnd].
    simpl in Hk'. rewrite json_props_with_cons.
    apply elem_of_cons in Hin as [[= <- <-]|Hin].
    + assert (Js.last_prop k (Js.json_props_with Js.json props) = None) as Hrest.
      { apply last_prop_None. intros Hk. by apply json_props_with_keys in Hk. }
      destruct v; try done; rewrite last_prop_cons, Hrest;
        by rewrite decide_True.
    + specialize (IH Hnd Hin).
      destruct v'; rewrite ?last_prop_cons, IH; done.
Qed.

(** The data in the store after a change handler whose save the store
    takes: the settings with the change, as JSON. *)
Lemma change_handler_data k v h w :
  (∀ d, saveData h d = None) →
  data ((set_setting k v;; saveSettings) h w).2
  = Js.json (Js.Object (map_to_list (<[k := v]> (this_settings w)))).
Proof.
  intros Hsave. rewrite change_handler_run, Hsave. simpl.
  unfold settings_to_store. by rewrite this_settings_setting_written.
Qed.

Lemma change_handler_defaults k v h w o :
  settings w = Own o →
  DEFAULT_SETTINGS ((set_setting k v;; saveSettings) h w).2 = DEFAULT_SETTINGS w.
Proof.
  intros Hown. rewrite change_handler_run. unfold setting_written.
  rewrite Hown. by destruct (saveData h _).
Qed.

(** After a change handler whose save the store takes, [loadSettings] reads
    back every property that is in memory and is stored as it is. *)
Lemma change_handler_reload k0 v0 h h' w k v :
  (∀ d, saveData h d = None) →
  this_settings ((set_setting k0 v0;; saveSettings) h w).2 !! k = Some v →
  stored_as_is v →
  this_settings
    (loadSettings h' ((set_setting k0 v0;; saveSettings) h w).2).2 !! k
  = Some v.
Proof.
  intros Hsave Hk Hv. rewrite loadSettings_run. unfold this_settings at 1.
  simpl. rewrite lookup_assign1, (change_handler_data _ _ _ _ Hsave). simpl.
  rewrite change_handler_settings in Hk. apply elem_of_map_to_list in Hk.
  by rewrite (last_prop_json_props _ _ _ (NoDup_fst_map_to_list _) Hk Hv).
Qed.

(** X17 (the change handlers, lines 230-247, [saveSettings], lines 92-94,
    and [loadSettings], lines 88-90).  When the store takes the settings, a
    change made in the settings tab is still there when the settings are
    loaded again: the changed field is read back with the value it was
    given, and so is every other property that is a boolean, a string or
    [null] in memory.  When the store rejects them, the stored data is
    what it was before the change. *)
Theorem change_survives_reload h h' w :
  ((∀ d, saveData h d = None) →
   (∀ value,
      Js.get (this_settings
                (loadSettings h' (showNotice_onChange value h w).2).2)
        "showNotice" = Js.Bool value) ∧
   (∀ qs,
      Js.get (this_settings
                (loadSettings h' (quoteStyle_onChange qs h w).2).2)
        "quoteStyle" = Js.Str (QuoteStyle_str qs)) ∧
   (∀ a k v,
      (∃ value, a = ToggleShowNotice value) ∨ (∃ qs, a = SelectQuoteStyle qs) →
      this_settings (run_action a h w).2 !! k = Some v →
      stored_as_is v →
      this_settings (loadSettings h' (run_action a h w).2).2 !! k = Some v)) ∧
  ((∀ d, is_Some (saveData h d)) →
   ∀ a,
     (∃ value, a = ToggleShowNotice value) ∨ (∃ qs, a = SelectQuoteStyle qs) →
     data (run_action a h w).2 = data w).
Proof.
  split.
  - intros Hsave. split; [|split].
    + intros value. unfold Js.get, showNotice_onChange.
      rewrite (change_handler_reload _ _ _ _ _ _ (Js.Bool value)); try done.
      by rewrite change_handler_settings, lookup_insert_eq.
    + intros qs. unfold Js.get, quoteStyle_onChange.
      rewrite (change_handler_reload _ _ _ _ _ _ (Js.Str (QuoteStyle_str qs)));
        try done.
      by rewrite change_handler_settings, lookup_insert_eq.
    + intros a k v [[value ->]|[qs ->]] Hk Hv; by apply change_handler_reload.
  - intros Hreject a Ha.
    assert (∀ k v, data ((set_setting k v;; saveSettings) h w).2 = data w)
      as Hdata.
    { intros k v. rewrite change_handler_run.
      destruct (Hreject (settings_to_store (setting_written k v w)))
        as [err ->].
      simpl. unfold setting_written. by destruct (settings w). }
    destruct Ha as [[value ->]|[qs ->]]; apply Hdata.
Qed.

Lemma change_survives_reload_witness :
  (∀ d, saveData (sample_host None [] None) d = None) ∧
  Js.get (this_settings
            (loadSettings (sample_host None [] None)
               (quoteStyle_onChange double (sample_host None [] None)
                  sample_world).2).2)
    "quoteStyle" = Js.Str (QuoteStyle_str double).
Proof.
  split; [reflexivity|].
  destruct (change_survives_reload (sample_host None [] None)
              (sample_host None [] None) sample_world) as [Haccept _].
  destruct Haccept as (_ & Hquote & _); [reflexivity|]. apply Hquote.
Defined.

Example change_lost_when_store_rejects :
  data (quoteStyle_onChange double
          (sample_host_failing_store (Js.Error "Error")) sample_world).2
  = Js.Null ∧
  Js.get (this_settings
            (loadSettings (sample_host None [] None)
               (quoteStyle_onChange double
                  (sample_host_failing_store (Js.Error "Error"))
                  sample_world).2).2)
    "quoteStyle" = Js.Str "single".
Proof. split; vm_compute; reflexivity. Qed.

(** The settings in memory after two change handlers, whether or not the
    store took them. *)
Lemma change_handlers_settings k1 v1 k2 v2 h1 h2 w :
  this_settings
    ((set_setting k2 v2;; saveSettings) h2
       ((set_setting k1 v1;; saveSettings) h1 w).2).2
  = <[k2 := v2]> (<[k1 := v1]> (this_settings w)).
Proof. by rewrite !change_handler_settings. Qed.

(** The properties in the store after two change handlers, when the store
    took the second save. *)
Lemma change_handlers_data k1 v1 k2 v2 h1 h2 w :
  (∀ d, saveData h2 d = None) →
  data ((set_setting k2 v2;; saveSettings) h2
          ((set_setting k1 v1;; saveSettings) h1 w).2).2
  = Js.json (Js.Object
               (map_to_list (<[k2 := v2]> (<[k1 := v1]> (this_settings w))))).
Proof.
  intros Hsave. by rewrite (change_handler_data _ _ _ _ Hsave),
    change_handler_settings.
Qed.

(** X20 (the change handlers of [CopyPathSettingTab.display], lines
    230-247).  The two controls of the settings tab do not interfere:
    changing the notice setting and then the quote style leaves the same
    settings in memory as changing them in the other order, whatever the
    store does; and when the store takes the later save in either order,
    the same properties are stored. *)
Theorem change_handlers_commute value qs h1 h2 h3 h4 w :
  this_settings (quoteStyle_onChange qs h2 (showNotice_onChange value h1 w).2).2
  = this_settings
      (showNotice_onChange value h4 (quoteStyle_onChange qs h3 w).2).2 ∧
  ((∀ d, saveData h2 d = None) → (∀ d, saveData h4 d = None) →
   stored_properties
     (quoteStyle_onChange qs h2 (showNotice_onChange value h1 w).2).2
   = stored_properties
       (showNotice_onChange value h4 (quoteStyle_onChange qs h3 w).2).2).
Proof.
  unfold quoteStyle_onChange, showNotice_onChange, stored_properties.
  split.
  - rewrite !change_handlers_settings.
    apply (insert_insert_ne _ "quoteStyle" "showNotice"). done.
  - intros Hsave2 Hsave4.
    rewrite (change_handlers_data _ _ _ _ _ _ _ Hsave2).
    rewrite (change_handlers_data _ _ _ _ _ _ _ Hsave4).
    by rewrite (insert_insert_ne _ "quoteStyle" "showNotice").
Qed.

Lemma change_handlers_commute_witness :
  (∀ d, saveData (sample_host None [] None) d = None) ∧
  stored_properties
    (quoteStyle_onChange double (sample_host None [] None)
       (showNotice_onChange false
          (sample_host_failing_store (Js.Error "Error")) sample_world).2).2
  = stored_properties
      (showNotice_onChange false (sample_host None [] None)
         (quoteStyle_onChange double
            (sample_host_failing_store (Js.Error "Error")) sample_world).2).2.
Proof.
  split; [reflexivity|].
  by apply (change_handlers_commute false double
              (sample_host_failing_store (Js.Error "Error"))
              (sample_host None [] None)
              (sample_host_failing_store (Js.Error "Error"))
              (sample_host None [] None) sample_world).
Defined.

(** X21 (the change handlers, lines 230-247).  Of two changes of the same
    setting the later one counts: the settings in memory are those after
    the later change alone, whatever the store does; and when the store
    takes the later save, so are the properties stored. *)
Theorem change_handler_last_wins h1 h2 h3 w :
  (∀ value1 value2,
     this_settings
       (showNotice_onChange value2 h2 (showNotice_onChange value1 h1 w).2).2
     = this_settings (showNotice_onChange value2 h3 w).2 ∧
     ((∀ d, saveData h2 d = None) → (∀ d, saveData h3 d = None) →
      stored_properties
        (showNotice_onChange value2 h2 (showNotice_onChange value1 h1 w).2).2
      = stored_properties (showNotice_onChange value2 h3 w).2)) ∧
  (∀ qs1 qs2,
     this_settings
       (quoteStyle_onChange qs2 h2 (quoteStyle_onChange qs1 h1 w).2).2
     = this_settings (quoteStyle_onChange qs2 h3 w).2 ∧
     ((∀ d, saveData h2 d = None) → (∀ d, saveData h3 d = None) →
      stored_properties
        (quoteStyle_onChange qs2 h2 (quoteStyle_onChange qs1 h1 w).2).2
      = stored_properties (quoteStyle_onChange qs2 h3 w).2)).
Proof.
  unfold quoteStyle_onChange, showNotice_onChange, stored_properties.
  split; intros x1 x2; (split;
    [rewrite change_handlers_settings, change_handler_settings;
     apply insert_insert_eq
    |intros Hsave2 Hsave3;
     rewrite (change_handlers_data _ _ _ _ _ _ _ Hsave2),
       (change_handler_data _ _ _ _ Hsave3);
     by rewrite insert_insert_eq]).
Qed.

Lemma change_handler_last_wins_witness :
  (∀ d, saveData (sample_host None [] None) d = None) ∧
  stored_properties
    (quoteStyle_onChange single (sample_host None [] None)
       (quoteStyle_onChange double (sample_host None [] None)
          sample_world).2).2
  = stored_properties
      (quoteStyle_onChange single (sample_host None [] None) sample_world).2.
Proof.
  split; [reflexivity|].
  destruct (change_handler_last_wins (sample_host None [] None)
              (sample_host None [] None) (sample_host None [] None)
              sample_world) as [_ Hquote].
  by apply Hquote.
Defined.

(** X22 ([quoteStyle_onChange], lines 244-247, then [formatPaths], lines
    175-178).  After the quote style is chosen in the settings tab, paths
    are formatted with the quote character of the chosen style. *)
Theorem quoteStyle_change_takes_effect qs h w (paths : list string) :
  formatPaths (this_settings (quoteStyle_onChange qs h w).2) paths
  = quoted_list (quote_char qs) paths.
Proof.
  unfold quoteStyle_onChange. rewrite change_handler_settings.
  rewrite formatPaths_join. simpl.
  rewrite (quote_selected _ qs); [apply join_quoted|].
  unfold Js.get. by rewrite lookup_insert_eq.
Qed.

(** X23 ([showNotice_onChange], lines 230-233, then
    [copyPathsToClipboard], lines 193-201).  After the notice setting is
    switched in the settings tab, a copy that succeeds shows its notice
    when the setting was switched on and none when it was switched off. *)
Theorem showNotice_change_takes_effect value files h0 h w :
  collectAllPaths files ≠ [] →
  (∀ text, writeText h text = None) →
  notices (events (copyPathsToClipboard files h
                     (showNotice_onChange value h0 w).2).2)
  = notices (events w)
      ++ if value
         then [if bool_decide (length (collectAllPaths files) = 1)
               then "Path copied"
               else pretty (length (collectAllPaths files)) +:+ " paths copied"]
         else [].
Proof.
  intros Hne Hok.
  pose proof (change_handler_settings "showNotice" (Js.Bool value) h0 w) as Hset.
  assert (events ((set_setting "showNotice" (Js.Bool value);; saveSettings)
                    h0 w).2 = events w) as Hev.
  { rewrite change_handler_run. unfold setting_written.
    by destruct (saveData h0 _), (settings w). }
  change (showNotice_onChange value h0 w)
    with ((set_setting "showNotice" (Js.Bool value);; saveSettings) h0 w).
  set (w' := ((set_setting "showNotice" (Js.Bool value);; saveSettings) h0 w).2)
    in *.
  clearbody w'.
  rewrite copyPathsToClipboard_run. cbv zeta.
  rewrite bool_decide_eq_false_2 by (by destruct (collectAllPaths files)).
  rewrite Hok, Hset. unfold Js.get at 1. rewrite lookup_insert_eq.
  destruct value; read_events; by rewrite Hev.
Qed.

Lemma showNotice_change_takes_effect_witness :
  collectAllPaths [TFile "a.md"] ≠ [] ∧
  (∀ text, writeText (sample_host None [] None) text = None) ∧
  notices (events (copyPathsToClipboard [TFile "a.md"]
                     (sample_host None [] None)
                     (showNotice_onChange false (sample_host None [] None)
                        sample_world).2).2)
  = notices (events sample_world) ++ [].
Proof.
  split; [discriminate|]. split; [reflexivity|].
  by apply (showNotice_change_takes_effect false [TFile "a.md"]).
Defined.

(** X24 ([loadSettings], lines 88-90).  When the stored data has no
    property of its own (there is none, or it is [null], a boolean, a
    number, or an empty object, array or string), the loaded settings are
    a copy of the defaults. *)
Theorem loadSettings_no_stored_property h w :
  Js.own_props (data w) = [] →
  this_settings (loadSettings h w).2 = DEFAULT_SETTINGS w ∧
  settings (loadSettings h w).2 ≠ SharedDefault.
Proof.
  intros Hnone. rewrite loadSettings_run. unfold this_settings. simpl.
  by rewrite Hnone.
Qed.

Lemma loadSettings_no_stored_property_witness :
  Js.own_props (data (initial (Js.Number 3))) = [] ∧
  this_settings (loadSettings (sample_host None [] None)
                   (initial (Js.Number 3))).2
  = DEFAULT_SETTINGS (initial (Js.Number 3)).
Proof.
  split; [reflexivity|].
  by apply (loadSettings_no_stored_property (sample_host None [] None)
              (initial (Js.Number 3))).
Defined.

End settings_store.

(** ** Stored data that is no object *)

Section indexed_data.
Implicit Types (h : Host) (w : World) (k : string) (i : nat).

(** The keys of an array and of a string are decimal numerals: they start
    with a digit. *)
Lemma pretty_N_go_head (x : N) (s : string) :
  (0 < x)%N → ∃ y s', pretty_N_go x s = String (pretty_N_char y) s'.
Proof.
  revert s. induction (N.lt_wf_0 x) as [x _ IH]. intros s Hpos.
  rewrite pretty_N_go_step by done.
  destruct (decide (x `div` 10 = 0)%N) as [->|Hdiv].
  - rewrite pretty_N_go_0. eauto.
  - apply IH; [apply N.div_lt; lia|by apply N.neq_0_lt_0].
Qed.

Lemma pretty_nat_head i : ∃ y s', pretty i = String (pretty_N_char y) s'.
Proof.
  unfold pretty, pretty_nat, pretty, pretty_N.
  destruct (decide (N.of_nat i = 0)%N).
  - by exists 0%N, "".
  - apply pretty_N_go_head. lia.
Qed.

Lemma pretty_nat_not_field i : pretty i ≠ "quoteStyle" ∧ pretty i ≠ "showNotice".
Proof.
  destruct (pretty_nat_head i) as (y & s' & ->).
  unfold pretty_N_char. split; intros [= Hc _]; by repeat case_match.
Qed.

Lemma index_keys_not_field {A} (f : nat → A → Js.value) (l : list A) k :
  k = "quoteStyle" ∨ k = "showNotice" →
  k ∉ (imap (λ i x, (pretty i, f i x)) l).*1.
Proof.
  intros Hk (kv & -> & Hin)%list_elem_of_fmap.
  apply elem_of_lookup_imap_1 in Hin as (i & x & -> & _). simpl in Hk.
  destruct (pretty_nat_not_field i). by destruct Hk.
Qed.

(** X25 ([loadSettings], lines 88-90).  When the stored data is an array or
    a string instead of an object, its properties are its indices, so both
    fields of the settings keep their defaults: quote style [single], and
    the notice on. *)
Theorem loadSettings_indexed_data h w :
  DEFAULT_SETTINGS w = DEFAULT_SETTINGS_literal →
  (∃ elems, data w = Js.Array elems) ∨ (∃ s, data w = Js.Str s) →
  Js.get (this_settings (loadSettings h w).2) "quoteStyle" = Js.Str "single" ∧
  Js.get (this_settings (loadSettings h w).2) "showNotice" = Js.Bool true.
Proof.
  intros Hdef Hdata. rewrite loadSettings_run. unfold this_settings, Js.get.
  simpl. rewrite Hdef, !lookup_assign1.
  assert (∀ k, k = "quoteStyle" ∨ k = "showNotice" →
               k ∉ (Js.own_props (data w)).*1) as Hkeys.
  { intros k Hk. destruct Hdata as [[elems ->]|[s ->]]; simpl.
    - by apply (index_keys_not_field (λ _ x, x)).
    - by apply (index_keys_not_field (λ _ c, Js.Str c)). }
  rewrite !last_prop_None by (apply Hkeys; auto). done.
Qed.

Lemma loadSettings_indexed_data_witness :
  DEFAULT_SETTINGS (initial (Js.Array [Js.Str "double"; Js.Bool false]))
  = DEFAULT_SETTINGS_literal ∧
  ((∃ elems, data (initial (Js.Array [Js.Str "double"; Js.Bool false]))
             = Js.Array elems) ∨
   (∃ s, data (initial (Js.Array [Js.Str "double"; Js.Bool false]))
         = Js.Str s)) ∧
  Js.get (this_settings
            (loadSettings (sample_host None [] None)
               (initial (Js.Array [Js.Str "double"; Js.Bool false]))).2)
    "quoteStyle" = Js.Str "single".
Proof.
  split; [reflexivity|]. split; [left; eexists; reflexivity|].
  apply (loadSettings_indexed_data (sample_host None [] None)
           (initial (Js.Array [Js.Str "double"; Js.Bool false])));
    [reflexivity|left; eexists; reflexivity].
Defined.

End indexed_data.

(** ** When no path is collected *)

Section no_paths.
Implicit Types (items : list TAbstractFile) (h : Host) (w : World).

Lemma collectAllPaths_nil_Forall items :
  collectAllPaths items = [] ↔ Forall (λ item, ¬ is_file_or_folder item) items.
Proof.
  rewrite collectAllPaths_filter. split.
  - intros Hnil%fmap_nil_inv. apply Forall_forall. intros item Hin Hff.
    assert (item ∈ filter is_file_or_folder items) as Hin'
      by (by apply list_elem_of_filter).
    rewrite Hnil in Hin'. by apply elem_of_nil in Hin'.
  - intros Hall. induction Hall as [|item items Hitem _ IH]; [done|].
    rewrite filter_cons. by destruct (decide (is_file_or_folder item)).
Qed.

(** The notice of a copy that succeeded is not the notice for no paths. *)
Lemma copied_notice_other (count : nat) :
  (if bool_decide (count = 1) then "Path copied"
   else pretty count +:+ " paths copied") ≠ "No paths to copy".
Proof.
  case_bool_decide; [done|].
  destruct (pretty_nat_head count) as (y & s' & ->).
  rewrite str_app_cons. unfold pretty_N_char. intros [= Hc _].
  by repeat case_match.
Qed.

(** X7 ([collectAllPaths], lines 157-170, and [copyPathsToClipboard],
    lines 186-189).  No path is collected exactly when no entry is a file
    or a folder; the empty input is one such case.  And this is exactly
    when [copyPathsToClipboard] shows the notice "No paths to copy". *)
Theorem collectAllPaths_nil_iff items :
  (collectAllPaths items = []
   ↔ Forall (λ item, ¬ is_file_or_folder item) items) ∧
  (∀ h w,
     collectAllPaths items = []
     ↔ notices (events (copyPathsToClipboard items h w).2)
       = notices (events w) ++ ["No paths to copy"]).
Proof.
  split; [apply collectAllPaths_nil_Forall|]. intros h w.
  rewrite copyPathsToClipboard_run. cbv zeta. rewrite collected_nil_length.
  case_bool_decide as Hnil.
  - split; [intros _; by read_events|done].
  - split; [done|]. intros Hshown. exfalso. revert Hshown.
    destruct (writeText h _) as [err|].
    + read_events. by intros [=]%app_inv_head.
    + destruct (Js.truthy _); read_events.
      * intros [= Hmsg]%app_inv_head. by apply copied_notice_other in Hmsg.
      * rewrite <- (app_nil_r (notices (events w))) at 1.
        by intros [=]%app_inv_head.
Qed.

Example copyPathsToClipboard_only_other_entries :
  notices (events (copyPathsToClipboard [TOther "x"; TOther "y"]
                     (sample_host None [] None) sample_world).2)
  = ["No paths to copy"].
Proof. reflexivity. Qed.

End no_paths.

(** ** The two fields of the settings are defined *)

Section fields_defined.
Implicit Types (h : Host) (w : World) (steps : list (Action * Host)).

Lemma run_actions_cons (step : Action * Host) steps w :
  run_actions (step :: steps) w
  = run_actions steps (run_action step.1 step.2 w).2.
Proof. reflexivity. Qed.

Lemma same_settings_this_settings w w' :
  same_settings w w' → this_settings w' = this_settings w.
Proof. intros (Hd & Hs & _). unfold this_settings. by rewrite Hd, Hs. Qed.

(** A callback leaves a field of the settings defined. *)
Lemma run_action_field_defined a h w k :
  Js.get (this_settings w) k ≠ Js.Undefined →
  Js.get (this_settings (run_action a h w).2) k ≠ Js.Undefined.
Proof.
  intros Hk. pose proof (run_action_settings a h w) as Hact.
  destruct a as [| | |file|files|value|qs];
    try (by rewrite (same_settings_this_settings _ _ Hact));
    rewrite Hact; unfold Js.get in *; rewrite lookup_insert;
    by case_decide.
Qed.

Lemma loadSettings_field_defined stored h k :
  Forall (λ kv, kv.2 ≠ Js.Undefined) (Js.own_props stored) →
  is_Some (DEFAULT_SETTINGS_literal !! k) →
  Js.get (this_settings (loadSettings h (initial stored)).2) k ≠ Js.Undefined.
Proof.
  intros Hjson Hk. rewrite loadSettings_run. unfold this_settings, Js.get.
  simpl. rewrite lookup_assign1.
  destruct (Js.last_prop k (Js.own_props stored)) as [v|] eqn:Hlast.
  - apply last_prop_Some_elem_of in Hlast.
    rewrite Forall_forall in Hjson. apply (Hjson _ Hlast).
  - unfold DEFAULT_SETTINGS_literal in *.
    destruct (decide (k = "quoteStyle")) as [->|Hq]; [by vm_compute|].
    rewrite lookup_insert_ne in * by done.
    destruct (decide (k = "showNotice")) as [->|Hn]; [by vm_compute|].
    rewrite lookup_insert_ne, lookup_empty in Hk by done.
    by destruct Hk.
Qed.

(** X19 ([loadSettings], lines 88-90, and the change handlers, lines
    230-247).  When no property of the stored data is [undefined] (the
    store gives back JSON), then after the settings are loaded, and after
    any callbacks that follow, neither [showNotice] nor [quoteStyle] is
    [undefined] in the settings. *)
Theorem settings_fields_defined stored h steps :
  Forall (λ kv, kv.2 ≠ Js.Undefined) (Js.own_props stored) →
  Js.get (this_settings
            (run_actions steps (loadSettings h (initial stored)).2))
    "showNotice" ≠ Js.Undefined ∧
  Js.get (this_settings
            (run_actions steps (loadSettings h (initial stored)).2))
    "quoteStyle" ≠ Js.Undefined.
Proof.
  intros Hjson.
  assert (∀ k w, Js.get (this_settings w) k ≠ Js.Undefined →
                 Js.get (this_settings (run_actions steps w)) k ≠ Js.Undefined)
    as Hsteps.
  { intros k. induction steps as [|step steps IH]; intros w Hk; [done|].
    rewrite run_actions_cons. by apply IH, run_action_field_defined. }
  split; apply Hsteps, loadSettings_field_defined; try done;
    by vm_compute; eauto.
Qed.

Lemma settings_fields_defined_witness :
  Forall (λ kv, kv.2 ≠ Js.Undefined)
    (Js.own_props (Js.Object [("showNotice", Js.Null)])) ∧
  Js.get (this_settings
            (run_actions
               [(CommandCopyActiveFilePath, sample_host None [] None);
                (SelectQuoteStyle double, sample_host None [] None)]
               (loadSettings (sample_host None [] None)
                  (initial (Js.Object [("showNotice", Js.Null)]))).2))
    "showNotice" ≠ Js.Undefined.
Proof.
  assert (Forall (λ kv, kv.2 ≠ Js.Undefined)
            (Js.own_props (Js.Object [("showNotice", Js.Null)]))) as Hjson
    by (repeat constructor; discriminate).
  split; [exact Hjson|].
  by apply (settings_fields_defined (Js.Object [("showNotice", Js.Null)])
              (sample_host None [] None)
              [(CommandCopyActiveFilePath, sample_host None [] None);
               (SelectQuoteStyle double, sample_host None [] None)]).
Defined.

End fields_defined.
